(** * Rate limit manager: a shallow embedding of [utils/rate_limit_manager.py]

    The development follows the Python module top-down:
    - [PyStr], [PyInt], [PyTime]: the pieces of the Python runtime the module
      leans on ([str.lower], [in], [int(str)], [datetime.fromtimestamp]);
    - [RateLimitConfig], [BackoffStrategy], [RateLimitManager]: the classes;
    - the methods, with the dictionaries as [gmap]s, exceptions as an
      explicit [result], and the clock, the random source, the calls of the
      operation and the log as a [World] that is threaded through.

    Conventions of the model.
    - Text is ASCII: a [string] is the sequence of its code points, all
      below 128 (HTTP header values and exception messages).
    - Durations and instants are exact rationals (seconds, resp. seconds
      since the Unix epoch); rounding and overflow of binary64 are not
      modelled.
    - A failure of the operation is an instance of [Exception]; its text is
      what [str(e)] yields.

    The module [Bedrock] does the same for the validator of
    [computer-use-demo/validate_bedrock.py]. *)

From Stdlib Require Import ZArith QArith Qminmax Qpower Lqa String Ascii List Bool Lia.
From stdpp Require Import base option gmap strings pretty.

Local Open Scope string_scope.
Local Open Scope Z_scope.

(** ** Exceptions and results *)

Inductive exn_class : Type :=
  | RuntimeError
  | ValueError
  | TypeError
  | KeyError
  | ZeroDivisionError
  | OverflowError
  | OSError
  | UserException (name : string).

Record exn : Type := mk_exn { exn_cls : exn_class; exn_msg : string }.

Inductive result (A : Type) : Type :=
  | Return (a : A)
  | Raise (e : exn).

Arguments Return {A} a.
Arguments Raise {A} e.

#[global] Instance result_ret : MRet result := fun A a => Return a.

#[global] Instance result_bind : MBind result := fun A B k r =>
  match r with
  | Return a => k a
  | Raise e => Raise e
  end.

(** ** Strings: [str.lower] and [needle in haystack] *)

Module PyStr.

Definition lower_ascii (c : ascii) : ascii :=
  let n := nat_of_ascii c in
  if ((65 <=? n) && (n <=? 90))%nat then ascii_of_nat (n + 32) else c.

Fixpoint lower (s : string) : string :=
  match s with
  | EmptyString => EmptyString
  | String c s' => String (lower_ascii c) (lower s')
  end.

(** [contains needle s] is Python's [needle in s]. *)
Fixpoint contains (needle s : string) : bool :=
  String.prefix needle s ||
  match s with
  | EmptyString => false
  | String _ s' => contains needle s'
  end.

End PyStr.

(** ** [int(s)] on a string, base 10 *)

Module PyInt.

(** The characters [str.strip] and [int] skip: tab, LF, VT, FF, CR, space. *)
Definition is_space (c : ascii) : bool :=
  let n := nat_of_ascii c in
  ((9 <=? n) && (n <=? 13) || (n =? 32))%nat.

Definition digit (c : ascii) : option Z :=
  let n := nat_of_ascii c in
  if ((48 <=? n) && (n <=? 57))%nat then Some (Z.of_nat (n - 48)) else None.

Fixpoint lstrip (l : list ascii) : list ascii :=
  match l with
  | c :: l' => if is_space c then lstrip l' else l
  | [] => []
  end.

Definition strip (l : list ascii) : list ascii :=
  rev (lstrip (rev (lstrip l))).

(** Digits with single underscores between them; [after_digit] says that
    the character just read was a digit, so that an underscore may follow
    and the literal may end. *)
Fixpoint digits (acc : Z) (after_digit : bool) (l : list ascii) : option Z :=
  match l with
  | [] => if after_digit then Some acc else None
  | c :: l' =>
      if Ascii.eqb c "_"%char then
        if after_digit then digits acc false l' else None
      else
        match digit c with
        | Some d => digits (10 * acc + d) true l'
        | None => None
        end
  end.

Definition parse (s : string) : option Z :=
  match strip (list_ascii_of_string s) with
  | c :: l =>
      if Ascii.eqb c "-"%char then Z.opp <$> digits 0 false l
      else if Ascii.eqb c "+"%char then digits 0 false l
      else digits 0 false (c :: l)
  | [] => None
  end.

(** [int(s)]: the value, or the [ValueError] of an invalid literal. *)
Definition of_str (s : string) : result Z :=
  match parse s with
  | Some z => Return z
  | None =>
      Raise (mk_exn ValueError
               ("invalid literal for int() with base 10: '" +:+ s +:+ "'"))
  end.

End PyInt.

(** ** Rationals: the comparisons Python makes on numbers *)

Definition Qltb (x y : Q) : bool :=
  match (x ?= y)%Q with Lt => true | _ => false end.

Definition Qleb (x y : Q) : bool :=
  match (x ?= y)%Q with Gt => false | _ => true end.

(** The builtin [min(x, y)]: the first argument unless the second is
    strictly smaller. *)
Definition py_min (x y : Q) : Q := if Qltb y x then y else x.

(** ** Instants: [datetime.fromtimestamp(t, timezone.utc)] *)

Module PyTime.

(** An aware UTC [datetime], as seconds since the Unix epoch. *)
Definition datetime : Type := Q.

Definition epoch : datetime := 0%Q.

(** The three ranges an integer timestamp goes through in CPython on a
    64-bit Linux: the C [time_t], what [gmtime_r] can break down (the year
    fits a C [int]), and the years 1..9999 a [datetime] can hold. *)
Definition time_t_min : Z := - 2 ^ 63.
Definition time_t_max : Z := 2 ^ 63 - 1.
Definition gmtime_min : Z := -67768040609740800.
Definition gmtime_max : Z := 67768036191676799.
Definition datetime_min : Z := -62135596800.
Definition datetime_max : Z := 253402300799.

Definition in_range (lo hi t : Z) : bool := (lo <=? t) && (t <=? hi).

Definition fromtimestamp (t : Z) : result datetime :=
  if negb (in_range time_t_min time_t_max t) then
    Raise (mk_exn OverflowError "timestamp out of range for platform time_t")
  else if negb (in_range gmtime_min gmtime_max t) then
    Raise (mk_exn OSError "[Errno 75] Value too large for defined data type")
  else if negb (in_range datetime_min datetime_max t) then
    Raise (mk_exn ValueError "year is out of range")
  else Return (inject_Z t).

End PyTime.

(** ** The world outside the manager *)

Inductive level : Type := INFO | WARNING.

(** The values a rate-limit dictionary holds. *)
Inductive value : Type :=
  | VInt (z : Z)
  | VDatetime (t : PyTime.datetime).

(** One record per [logger] call of the module, with the values its
    message is formatted from. *)
Inductive log_record : Type :=
  | LogParseError (e : exn)
  | LogStatus (op_id : string) (rate_info : gmap string value)
  | LogPreemptive (delay : Q)
  | LogExceeded (attempt max_retries : Z)
  | LogUnknownReset (delay : Q)
  | LogWaiting (wait_seconds : Q).

Inductive event : Type :=
  | EvCall
  | EvSleep (seconds : Q)
  | EvLog (lvl : level) (r : log_record).

(** [now] is the clock, [rand] the stream [random.random()] draws from and
    [rand_pos] the next draw, [calls] the number of times the operation has
    been invoked, [trace] what has happened, oldest first. *)
Record World : Type := mk_world {
  now : Q;
  rand : nat → Q;
  rand_pos : nat;
  calls : nat;
  trace : list event
}.

Definition emit (ev : event) (w : World) : World :=
  mk_world (now w) (rand w) (rand_pos w) (calls w) (trace w ++ [ev]).

Definition log (lvl : level) (r : log_record) (w : World) : World :=
  emit (EvLog lvl r) w.

(** [time.sleep(seconds)]: [ValueError] on a negative length, otherwise the
    clock moves on by [seconds]. *)
Definition sleep (seconds : Q) (w : World) : result unit * World :=
  if Qltb seconds 0 then
    (Raise (mk_exn ValueError "sleep length must be non-negative"), w)
  else
    (Return tt,
     mk_world (now w + seconds)%Q (rand w) (rand_pos w) (calls w)
              (trace w ++ [EvSleep seconds])).

(** [random.uniform(a, b)] is [a + (b - a) * random()]. *)
Definition uniform (a b : Q) (w : World) : Q * World :=
  ((a + (b - a) * rand w (rand_pos w))%Q,
   mk_world (now w) (rand w) (S (rand_pos w)) (calls w) (trace w)).

(** ** [RateLimitConfig] and [BackoffStrategy] *)

Record RateLimitConfig : Type := mk_config {
  max_retries : Z;
  initial_delay : Q;
  max_delay : Q;
  backoff_factor : Q;
  rate_limit_threshold : Q;
  enable_jitter : bool;
  jitter_factor : Q
}.

Definition default_config : RateLimitConfig :=
  mk_config 5 1 3600 2 (1 # 10) true (1 # 10).

Module BackoffStrategy.

Record t : Type := mk {
  initial_delay : Q;
  max_delay : Q;
  factor : Q;
  enable_jitter : bool;
  jitter_factor : Q
}.

Definition get_delay (self : t) (attempt : Z) (w : World) : Q * World :=
  let delay :=
    py_min (initial_delay self * factor self ^ attempt)%Q (max_delay self) in
  if enable_jitter self then
    let '(jitter, w') := uniform 0 (jitter_factor self * delay)%Q w in
    ((delay + jitter)%Q, w')
  else (delay, w).

End BackoffStrategy.

(** ** Dictionaries *)

(** [d[k]]: the value, or [KeyError]. *)
Definition getitem {V : Type} (d : gmap string V) (k : string) : result V :=
  match d !! k with
  | Some v => Return v
  | None => Raise (mk_exn KeyError ("'" +:+ k +:+ "'"))
  end.

(** Truth value of a dictionary: it is not empty. *)
Definition dict_truthy {V : Type} (d : gmap string V) : bool :=
  negb (size d =? 0)%nat.

(** Truth value of a stored value; a [datetime] is always true. *)
Definition truthy (v : value) : bool :=
  match v with
  | VInt z => negb (z =? 0)
  | VDatetime _ => true
  end.

(** ** [RateLimitManager] *)

Record RateLimitManager : Type := mk_manager {
  config : RateLimitConfig;
  backoff : BackoffStrategy.t;
  rate_limits : gmap string (gmap string value);
  retry_counts : gmap string Z
}.

Definition set_rate_limits (f : gmap string (gmap string value) → gmap string (gmap string value))
    (self : RateLimitManager) : RateLimitManager :=
  mk_manager (config self) (backoff self) (f (rate_limits self)) (retry_counts self).

Definition set_retry_counts (f : gmap string Z → gmap string Z)
    (self : RateLimitManager) : RateLimitManager :=
  mk_manager (config self) (backoff self) (rate_limits self) (f (retry_counts self)).

Definition __init__ (cfg : option RateLimitConfig) : RateLimitManager :=
  let c := default default_config cfg in
  mk_manager c
    (BackoffStrategy.mk (initial_delay c) (max_delay c) (backoff_factor c)
                        (enable_jitter c) (jitter_factor c))
    ∅ ∅.

(** The dictionary [_parse_rate_limit_headers] builds on success. *)
Definition snapshot (limit remaining : Z) (reset : PyTime.datetime) (used : Z)
    : gmap string value :=
  <["used" := VInt used]>
    (<["reset" := VDatetime reset]>
       (<["remaining" := VInt remaining]>
          (<["limit" := VInt limit]> ∅))).

(** [int(headers.get(key, 0))] *)
Definition header_int (headers : gmap string string) (key : string) : result Z :=
  match headers !! key with
  | Some s => PyInt.of_str s
  | None => Return 0
  end.

(** The body of the [try] of [_parse_rate_limit_headers]: the entries of the
    dictionary are evaluated in the order they are written. *)
Definition parse_fields (headers : gmap string string) : result (gmap string value) :=
  limit ← header_int headers "X-RateLimit-Limit";
  remaining ← header_int headers "X-RateLimit-Remaining";
  ts ← header_int headers "X-RateLimit-Reset";
  reset ← PyTime.fromtimestamp ts;
  used ← header_int headers "X-RateLimit-Used";
  Return (snapshot limit remaining reset used).

(** [except (ValueError, TypeError)] *)
Definition parse_handled (e : exn) : bool :=
  match exn_cls e with
  | ValueError | TypeError => true
  | _ => false
  end.

Definition _parse_rate_limit_headers (headers : gmap string string) (w : World)
    : result (gmap string value) * World :=
  match parse_fields headers with
  | Return rate_info => (Return rate_info, w)
  | Raise e =>
      if parse_handled e then (Return ∅, log WARNING (LogParseError e) w)
      else (Raise e, w)
  end.

(** [a / b] on stored values. *)
Definition truediv (a b : value) : result Q :=
  match a, b with
  | VInt x, VInt y =>
      if y =? 0 then Raise (mk_exn ZeroDivisionError "division by zero")
      else Return (inject_Z x / inject_Z y)%Q
  | _, _ => Raise (mk_exn TypeError "unsupported operand type(s) for /")
  end.

Definition _should_retry (self : RateLimitManager) (operation_id : string)
    (rate_info : gmap string value) : result bool :=
  count ← getitem (retry_counts self) operation_id;
  if max_retries (config self) <=? count then Return false
  else
    remaining ← getitem rate_info "remaining";
    limit ← getitem rate_info "limit";
    remaining_ratio ← truediv remaining limit;
    Return (Qleb remaining_ratio (rate_limit_threshold (config self))).

Definition _wait_for_reset (reset_time : value) (w : World) : result unit * World :=
  let now_ := now w in
  match reset_time with
  | VDatetime t =>
      if Qltb now_ t then
        let wait_seconds := (t - now_)%Q in
        sleep wait_seconds (log INFO (LogWaiting wait_seconds) w)
      else (Return tt, w)
  | VInt _ =>
      (Raise (mk_exn TypeError
                "'>' not supported between instances of 'int' and 'datetime.datetime'"),
       w)
  end.

Definition reset_counts (operation_id : option string) (self : RateLimitManager)
    : RateLimitManager :=
  match operation_id with
  | Some id =>
      if bool_decide (id = "") then set_retry_counts (fun _ => ∅) self
      else set_retry_counts (delete id) self
  | None => set_retry_counts (fun _ => ∅) self
  end.

Definition get_rate_limit_info (self : RateLimitManager) (operation_id : string)
    : gmap string value :=
  default ∅ (rate_limits self !! operation_id).

(** ** [execute_with_retry] *)

Section Execute.

(** [T] is the type of what the operation returns; [headers_of r] is
    [r.headers] when [hasattr(r, 'headers')]. *)
Context {T : Type} (headers_of : T → option (gmap string string)).

(** A zero-argument callable: [op_hash] is [hash(operation)], and
    [op_call n] is what the call does when it has been called [n] times
    before. *)
Record Operation : Type := mk_operation {
  op_hash : Z;
  op_call : nat → result T
}.

(** [operation()] *)
Definition invoke (operation : Operation) (w : World) : result T * World :=
  (op_call operation (calls w),
   mk_world (now w) (rand w) (rand_pos w) (S (calls w)) (trace w ++ [EvCall])).

(** [operation_id or str(hash(operation))] *)
Definition resolve_id (operation : Operation) (operation_id : option string) : string :=
  match operation_id with
  | Some id => if bool_decide (id = "") then pretty (op_hash operation) else id
  | None => pretty (op_hash operation)
  end.

(** The [try] block of the loop: the call, and what follows it. *)
Definition try_block (operation : Operation) (op_id : string)
    (self : RateLimitManager) (w : World)
    : result T * RateLimitManager * World :=
  match invoke operation w with
  | (Raise e, w1) => (Raise e, self, w1)
  | (Return res, w1) =>
      match headers_of res with
      | None => (Return res, self, w1)
      | Some headers =>
          match _parse_rate_limit_headers headers w1 with
          | (Raise e, w2) => (Raise e, self, w2)
          | (Return rate_info, w2) =>
              if dict_truthy rate_info then
                let self1 := set_rate_limits <[op_id := rate_info]> self in
                let w3 := log INFO (LogStatus op_id rate_info) w2 in
                match _should_retry self1 op_id rate_info with
                | Raise e => (Raise e, self1, w3)
                | Return false => (Return res, self1, w3)
                | Return true =>
                    match getitem (retry_counts self1) op_id with
                    | Raise e => (Raise e, self1, w3)
                    | Return count =>
                        let '(delay, w4) :=
                          BackoffStrategy.get_delay (backoff self1) count w3 in
                        match sleep delay (log INFO (LogPreemptive delay) w4) with
                        | (Raise e, w5) => (Raise e, self1, w5)
                        | (Return _, w5) => (Return res, self1, w5)
                        end
                    end
                end
              else (Return res, self, w2)
          end
      end
  end.

(** ["rate limit exceeded" in str(e).lower()] *)
Definition is_rate_limit (e : exn) : bool :=
  PyStr.contains "rate limit exceeded" (PyStr.lower (exn_msg e)).

(** The [except Exception as e] block: [Return tt] when control falls out
    of it, back to the loop; [Raise] when it raises. *)
Definition except_block (e : exn) (op_id : string)
    (self : RateLimitManager) (w : World)
    : result unit * RateLimitManager * World :=
  match getitem (retry_counts self) op_id with
  | Raise ke => (Raise ke, self, w)
  | Return count =>
      let self1 := set_retry_counts <[op_id := count + 1]> self in
      if is_rate_limit e then
        let rate_info := default ∅ (rate_limits self1 !! op_id) in
        if dict_truthy rate_info && from_option truthy false (rate_info !! "reset") then
          let w1 :=
            log WARNING (LogExceeded (count + 1) (max_retries (config self1))) w in
          match getitem rate_info "reset" with
          | Raise ke => (Raise ke, self1, w1)
          | Return reset =>
              let '(r, w2) := _wait_for_reset reset w1 in (r, self1, w2)
          end
        else
          let '(delay, w1) :=
            BackoffStrategy.get_delay (backoff self1) (count + 1) w in
          let '(r, w2) := sleep delay (log WARNING (LogUnknownReset delay) w1) in
          (r, self1, w2)
      else (Raise e, self1, w)
  end.

Definition retry_exhausted (op_id : string) (self : RateLimitManager) : exn :=
  mk_exn RuntimeError
    ("Operation " +:+ op_id +:+ " failed after "
       +:+ pretty (max_retries (config self)) +:+ " retries").

(** The [while] loop, with the [raise] that follows it. [fuel] bounds the
    number of iterations; [None] is a loop cut short by it. *)
Fixpoint retry_loop (fuel : nat) (operation : Operation) (op_id : string)
    (self : RateLimitManager) (w : World)
    : option (result T * RateLimitManager * World) :=
  match getitem (retry_counts self) op_id with
  | Raise ke => Some (Raise ke, self, w)
  | Return count =>
      if count <? max_retries (config self) then
        match fuel with
        | O => None
        | S fuel' =>
            match try_block operation op_id self w with
            | (Return res, self1, w1) => Some (Return res, self1, w1)
            | (Raise e, self1, w1) =>
                match except_block e op_id self1 w1 with
                | (Raise e', self2, w2) => Some (Raise e', self2, w2)
                | (Return _, self2, w2) =>
                    retry_loop fuel' operation op_id self2 w2
                end
            end
        end
      else Some (Raise (retry_exhausted op_id self), self, w)
  end.

(** Every iteration that comes back to the loop has added one to the
    counter, so the loop runs at most [max_retries - count] times. *)
Definition iterations (op_id : string) (self : RateLimitManager) : nat :=
  Z.to_nat (max_retries (config self) - default 0 (retry_counts self !! op_id)).

Definition execute_with_retry (operation : Operation) (operation_id : option string)
    (self : RateLimitManager) (w : World)
    : option (result T * RateLimitManager * World) :=
  let op_id := resolve_id operation operation_id in
  (* self.retry_counts.setdefault(op_id, 0) *)
  let self0 :=
    match retry_counts self !! op_id with
    | Some _ => self
    | None => set_retry_counts <[op_id := 0]> self
    end in
  retry_loop (iterations op_id self0) operation op_id self0 w.

End Execute.

Arguments Operation T : clear implicits.
Arguments mk_operation {T} op_hash op_call.

(** ** Invariants *)

(** Delays are durations: none of the parameters is negative. *)
Definition backoff_ok (b : BackoffStrategy.t) : Prop :=
  (0 <= BackoffStrategy.initial_delay b)%Q ∧ (0 <= BackoffStrategy.max_delay b)%Q
  ∧ (0 <= BackoffStrategy.factor b)%Q ∧ (0 <= BackoffStrategy.jitter_factor b)%Q.

(** A stored dictionary has a [datetime] under ['reset'], as every
    dictionary [_parse_rate_limit_headers] builds has. *)
Definition snapshot_ok (rate_info : gmap string value) : Prop :=
  ∀ v, rate_info !! "reset" = Some v → ∃ t, v = VDatetime t.

Definition manager_ok (self : RateLimitManager) : Prop :=
  backoff_ok (backoff self)
  ∧ ∀ id rate_info, rate_limits self !! id = Some rate_info → snapshot_ok rate_info.

(** [random.random()] is in [[0, 1)]. *)
Definition rand_ok (w : World) : Prop :=
  ∀ n, (0 <= rand w n)%Q ∧ (rand w n < 1)%Q.

(** The header keys that are read. *)
Definition recognized : list string :=
  ["X-RateLimit-Limit"; "X-RateLimit-Remaining"; "X-RateLimit-Reset"; "X-RateLimit-Used"].

(** The header is there, and [int] rejects its value. *)
Definition non_numeric (headers : gmap string string) (key : string) : Prop :=
  ∃ s, headers !! key = Some s ∧ PyInt.parse s = None.

(** The reset time, when it is a number, is one [gmtime] can break down. *)
Definition reset_in_range (headers : gmap string string) : Prop :=
  ∀ ts, header_int headers "X-RateLimit-Reset" = Return ts →
        PyTime.in_range PyTime.gmtime_min PyTime.gmtime_max ts = true.


(** The retry count an operation id starts from: what is stored, and [0]
    when nothing is. *)
Definition count_of (self : RateLimitManager) (op_id : string) : Z :=
  default 0 (retry_counts self !! op_id).

(** [quiet w w']: from [w] to [w'] the operation was not called and the
    random source is the same one. *)
Definition quiet (w w' : World) : Prop :=
  calls w' = calls w ∧ rand w' = rand w.

(** ** The module's tests, as data *)

Module Tests.

Record MockResponse : Type := mk_response { headers : gmap string string }.

Definition headers_of (r : MockResponse) : option (gmap string string) :=
  Some (headers r).

Definition github_headers : gmap string string :=
  <["X-RateLimit-Limit" := "5000"]>
    (<["X-RateLimit-Remaining" := "4999"]>
       (<["X-RateLimit-Reset" := "1700000000"]>
          (<["X-RateLimit-Used" := "1"]> ∅))).

(** A clock a while after the epoch; every draw of the random source is
    one half. *)
Definition world : World := mk_world 1700000000 (fun _ => 1 # 2)%Q 0 0 [].

Definition rate_limited : exn :=
  mk_exn (UserException "Exception") "rate limit exceeded".

Definition boom : exn := mk_exn (UserException "Exception") "boom".

(** [test_execute_with_retry_rate_limit]: fails once, then answers. *)
Definition fails_once : Operation MockResponse :=
  mk_operation 42
    (fun n => if (n <? 1)%nat then Raise rate_limited
              else Return (mk_response github_headers)).


Definition always_boom : Operation MockResponse :=
  mk_operation 42 (fun _ => Raise boom).


Definition config_two_retries : RateLimitConfig :=
  mk_config 2 (1 # 10) (2 # 10) 2 (1 # 10) true (1 # 10).


(** A reset time no [time_t] holds, and a count that is no number. *)
Definition overflowing_headers : gmap string string :=
  <["X-RateLimit-Reset" := "99999999999999999999"]>
    (<["X-RateLimit-Used" := "abc"]> ∅).


(** [test_backoff_strategy] *)
Definition strategy : BackoffStrategy.t :=
  BackoffStrategy.mk 1 10 2 false (1 # 10).

(** [test_should_retry_logic] *)
Definition low_quota : gmap string value :=
  <["remaining" := VInt 50]> (<["limit" := VInt 5000]> ∅).
Definition high_quota : gmap string value :=
  <["remaining" := VInt 4000]> (<["limit" := VInt 5000]> ∅).
Definition no_quota : gmap string value :=
  <["remaining" := VInt 0]> (<["limit" := VInt 0]> ∅).

Definition manager_with (count : Z) : RateLimitManager :=
  set_retry_counts <["test_op" := count]> (__init__ None).



(** [test_reset_counts] *)
Definition two_counters : RateLimitManager :=
  set_retry_counts (fun _ => <["op1" := 2]> (<["op2" := 3]> ∅)) (__init__ None).

(** [test_execute_with_retry_success]: answers at once. *)
Definition succeeds : Operation MockResponse :=
  mk_operation 42 (fun _ => Return (mk_response github_headers)).

(** Answers at once, with no header at all. *)
Definition succeeds_bare : Operation MockResponse :=
  mk_operation 42 (fun _ => Return (mk_response ∅)).





(** Answers at once, with a reset time no [time_t] holds. *)
Definition succeeds_overflowing : Operation MockResponse :=
  mk_operation 42 (fun _ => Return (mk_response overflowing_headers)).

End Tests.

(** ** [RateLimitException] *)

(** The exception the module defines for its callers to raise. [isoformat]
    is [datetime.isoformat]; [pretty] on an integer is [str]. *)
Definition RateLimitException (isoformat : PyTime.datetime → string)
    (reset_time : PyTime.datetime) (remaining limit : Z) : exn :=
  mk_exn (UserException "RateLimitException")
    ("Rate limit exceeded. " +:+ pretty remaining +:+ "/" +:+ pretty limit
       +:+ " remaining. " +:+ "Resets at " +:+ isoformat reset_time).

(** ** What a call may change *)

(** [same_but op_id self self']: [self'] has the configuration and the
    backoff of [self], and the counters and the rate limits of every
    operation id other than [op_id]. *)
Definition same_but (op_id : string) (self self' : RateLimitManager) : Prop :=
  config self' = config self ∧ backoff self' = backoff self
  ∧ ∀ other : string, other ≠ op_id →
      retry_counts self' !! other = retry_counts self !! other
      ∧ rate_limits self' !! other = rate_limits self !! other.

(** One for a result, nothing for an exception. *)
Definition returned {A : Type} (r : result A) : Z :=
  match r with
  | Return _ => 1
  | Raise _ => 0
  end.


(** * The Bedrock validator: [computer-use-demo/validate_bedrock.py]

    [BedrockValidator.list_available_models] and [validate_model]. What the
    client answers is an argument: [bedrock_client.list_foundation_models()]
    raises, or returns a dictionary that has the list ['modelSummaries'] or
    lacks it. A summary is a dictionary with the keys of the Bedrock API,
    each of which may be missing. A message is kept as the values it is
    formatted from. *)

Module Bedrock.

(** The keys of a summary that the validator reads. [lifecycle_status] is
    [model.get('modelLifecycle', {}).get('status')]: [None] when either key
    is missing. *)
Record ModelSummary : Type := mk_summary {
  modelId : option string;
  inputModalities : option (list string);
  outputModalities : option (list string);
  responseStreamingSupported : option bool;
  lifecycle_status : option string
}.

(** What [click.secho] writes. *)
Inductive output : Type :=
  | FailedToList (e : exn).

(** The second component of what [validate_model] returns. *)
Inductive message : Type :=
  | ModelNotFound (model_id region : string) (claude_models : list string)
  | MissingCapabilities (model_id : string)
  | AvailableAndSupported (model_id : string).

Definition list_available_models (response : result (option (list ModelSummary)))
    : list ModelSummary * list output :=
  match response with
  | Return modelSummaries =>
      (filter (λ model, lifecycle_status model = Some "ACTIVE") (default [] modelSummaries),
       [])
  | Raise e => ([], [FailedToList e])
  end.

(** [m['modelId']] *)
Definition getitem_modelId (m : ModelSummary) : result string :=
  match modelId m with
  | Some id => Return id
  | None => Raise (mk_exn KeyError "'modelId'")
  end.

(** [next((m for m in available_models if m['modelId'] == model_id), None)] *)
Fixpoint target_model (model_id : string) (available_models : list ModelSummary)
    : result (option ModelSummary) :=
  match available_models with
  | [] => Return None
  | m :: rest =>
      id ← getitem_modelId m;
      if bool_decide (id = model_id) then Return (Some m)
      else target_model model_id rest
  end.

(** [[m['modelId'] for m in available_models if 'claude' in m['modelId'].lower()]] *)
Fixpoint claude_models (available_models : list ModelSummary) : result (list string) :=
  match available_models with
  | [] => Return []
  | m :: rest =>
      id ← getitem_modelId m;
      if PyStr.contains "claude" (PyStr.lower id) then
        id' ← getitem_modelId m;
        names ← claude_models rest;
        Return (id' :: names)
      else claude_models rest
  end.

(** ['TEXT' in target_model.get(key, [])] *)
Definition has_text (modalities : option (list string)) : bool :=
  bool_decide ("TEXT" ∈ default [] modalities).

(** A summary that [next] has found has its ['modelId'], so it is not the
    empty dictionary, and [not target_model] is the test for [None]. *)
Definition validate_model (region model_id : string)
    (response : result (option (list ModelSummary)))
    : result (bool * message) * list output :=
  let '(available_models, out) := list_available_models response in
  (target ← target_model model_id available_models;
   match target with
   | None =>
       names ← claude_models available_models;
       Return (false, ModelNotFound model_id region names)
   | Some m =>
       let has_text_input := has_text (inputModalities m) in
       let has_text_output := has_text (outputModalities m) in
       let has_streaming := default false (responseStreamingSupported m) in
       if negb (has_text_input && has_text_output && has_streaming) then
         Return (false, MissingCapabilities model_id)
       else Return (true, AvailableAndSupported model_id)
   end,
   out).

(** The capabilities [validate_model] asks for. *)
Definition capable (m : ModelSummary) : Prop :=
  "TEXT" ∈ default [] (inputModalities m)
  ∧ "TEXT" ∈ default [] (outputModalities m)
  ∧ responseStreamingSupported m = Some true.

(** A listing: an embedding model, a model that has been retired, and a
    model that is there. *)
Definition titan : ModelSummary :=
  mk_summary (Some "amazon.titan-embed-text-v1") (Some ["TEXT"]) (Some ["EMBEDDING"])
             (Some false) (Some "ACTIVE").

Definition claude_v2 : ModelSummary :=
  mk_summary (Some "anthropic.claude-v2") (Some ["TEXT"]) (Some ["TEXT"])
             (Some true) (Some "LEGACY").

Definition claude_sonnet : ModelSummary :=
  mk_summary (Some "anthropic.claude-3-5-sonnet-20241022-v2:0") (Some ["TEXT"; "IMAGE"])
             (Some ["TEXT"]) (Some true) (Some "ACTIVE").

Definition listing : list ModelSummary := [titan; claude_v2; claude_sonnet].

End Bedrock.

(** * Properties *)

(** ** Comparisons on rationals *)






(** ** Dictionaries *)

Lemma dict_truthy_nonempty {V : Type} (d : gmap string V) :
  dict_truthy d = true ↔ d ≠ ∅.
Proof.
  unfold dict_truthy. rewrite negb_true_iff, Nat.eqb_neq.
  by rewrite map_size_empty_iff.
Qed.

Lemma dict_truthy_empty {V : Type} : dict_truthy (∅ : gmap string V) = false.
Proof. reflexivity. Qed.

Lemma getitem_Some {V : Type} (d : gmap string V) (k : string) (v : V) :
  d !! k = Some v → getitem d k = Return v.
Proof. intros H. unfold getitem. by rewrite H. Qed.

Lemma snapshot_lookup_limit l r t u : snapshot l r t u !! "limit" = Some (VInt l).
Proof. reflexivity. Qed.

Lemma snapshot_lookup_remaining l r t u :
  snapshot l r t u !! "remaining" = Some (VInt r).
Proof. reflexivity. Qed.

Lemma snapshot_lookup_reset l r t u : snapshot l r t u !! "reset" = Some (VDatetime t).
Proof. reflexivity. Qed.

Lemma snapshot_truthy l r t u : dict_truthy (snapshot l r t u) = true.
Proof.
  apply dict_truthy_nonempty. intros H.
  pose proof (snapshot_lookup_limit l r t u) as Hl. rewrite H in Hl. done.
Qed.

Lemma snapshot_is_ok l r t u : snapshot_ok (snapshot l r t u).
Proof. intros v Hv. rewrite snapshot_lookup_reset in Hv. simplify_eq. eauto. Qed.

(** ** Worlds: what the helpers leave alone *)

Lemma quiet_refl w : quiet w w.
Proof. by split. Qed.

Lemma quiet_trans w1 w2 w3 : quiet w1 w2 → quiet w2 w3 → quiet w1 w3.
Proof. intros [? ?] [? ?]. split; congruence. Qed.

Lemma quiet_rand_ok w w' : quiet w w' → rand_ok w → rand_ok w'.
Proof. intros [_ Hr] Hok n. rewrite Hr. apply Hok. Qed.

Lemma quiet_log lvl r w : quiet w (log lvl r w).
Proof. by split. Qed.

Lemma quiet_sleep d w : quiet w (sleep d w).2.
Proof. unfold sleep. destruct (Qltb d 0); by split. Qed.


Lemma quiet_get_delay b a w : quiet w (BackoffStrategy.get_delay b a w).2.
Proof.
  unfold BackoffStrategy.get_delay.
  destruct (BackoffStrategy.enable_jitter b); by split.
Qed.


Lemma quiet_wait_for_reset v w : quiet w (_wait_for_reset v w).2.
Proof.
  unfold _wait_for_reset. destruct v as [z | t]; [by split |].
  destruct (Qltb (now w) t); [| by split].
  eapply quiet_trans; [apply quiet_log | apply quiet_sleep].
Qed.


Lemma quiet_parse headers w : quiet w (_parse_rate_limit_headers headers w).2.
Proof.
  unfold _parse_rate_limit_headers.
  destruct (parse_fields headers) as [ri | e]; [by split |].
  destruct (parse_handled e); by split.
Qed.

(** ** Parsing: what comes out *)

Lemma parse_fields_snapshot headers rate_info :
  parse_fields headers = Return rate_info →
  ∃ limit remaining reset used, rate_info = snapshot limit remaining reset used.
Proof.
  unfold parse_fields. intros H.
  destruct (header_int headers "X-RateLimit-Limit") as [l | ?]; [| done].
  destruct (header_int headers "X-RateLimit-Remaining") as [r | ?]; [| done].
  destruct (header_int headers "X-RateLimit-Reset") as [ts | ?]; [| done].
  cbn in H.
  destruct (PyTime.fromtimestamp ts) as [t | ?]; [| done].
  destruct (header_int headers "X-RateLimit-Used") as [u | ?]; [| done].
  cbn in H. simplify_eq. eauto.
Qed.

Lemma parse_result headers w rate_info w' :
  _parse_rate_limit_headers headers w = (Return rate_info, w') →
  rate_info = ∅
  ∨ ∃ limit remaining reset used, rate_info = snapshot limit remaining reset used.
Proof.
  unfold _parse_rate_limit_headers. intros H.
  destruct (parse_fields headers) as [ri | e] eqn:E.
  - right. simplify_eq. by eapply parse_fields_snapshot.
  - destruct (parse_handled e); simplify_eq. by left.
Qed.

(** Closes a goal about the fields of the manager and the world an equation
    between triples determines. *)
Ltac frame_done :=
  lazymatch goal with
  | H : (_, _, _) = (_, _, _) |- _ => injection H as <- <- <-
  end;
  cbn [config backoff retry_counts rate_limits set_rate_limits set_retry_counts
       calls rand now rand_pos trace log emit fst snd] in *;
  repeat split; try congruence; eauto 10.

Section ExecuteFacts.

Context {T : Type} (headers_of : T → option (gmap string string)).
Implicit Types (operation : Operation T) (self : RateLimitManager) (w : World).

(** *** The [try] block *)


(** The [try] block calls the operation once, keeps the configuration and
    the counters, and stores at most a parsed dictionary for [op_id]. *)
Lemma try_block_frame operation op_id self w r self' w' :
  try_block headers_of operation op_id self w = (r, self', w') →
  config self' = config self ∧ backoff self' = backoff self
  ∧ retry_counts self' = retry_counts self
  ∧ calls w' = S (calls w) ∧ rand w' = rand w
  ∧ (rate_limits self' = rate_limits self
     ∨ ∃ l rm t u, rate_limits self' = <[op_id := snapshot l rm t u]> (rate_limits self)).
Proof.
  unfold try_block, invoke. intros H.
  destruct (op_call operation (calls w)) as [res | e]; [| by frame_done].
  destruct (headers_of res) as [headers |]; [| by frame_done].
  pose proof (quiet_parse headers
    (mk_world (now w) (rand w) (rand_pos w) (S (calls w)) (trace w ++ [EvCall])))
    as [Hc Hr].
  destruct (_parse_rate_limit_headers headers _) as [[rate_info | e] w2] eqn:Ep;
    [| by frame_done].
  destruct (dict_truthy rate_info) eqn:Et; [| by frame_done].
  assert (∃ l rm t u, rate_info = snapshot l rm t u) as (l & rm & t & u & ->).
  { destruct (parse_result _ _ _ _ Ep) as [-> | ?]; [done | done]. }
  clear Et Ep.
  destruct (_should_retry _ op_id _) as [[|] | e].
  - cbn [retry_counts set_rate_limits backoff] in H.
    destruct (getitem (retry_counts self) op_id) as [count | e]; [| by frame_done].
    pose proof (quiet_get_delay (backoff (set_rate_limits <[op_id:=snapshot l rm t u]> self))
      count (log INFO (LogStatus op_id (snapshot l rm t u)) w2)) as [Hc4 Hr4].
    destruct (BackoffStrategy.get_delay _ count _) as [delay w4].
    pose proof (quiet_sleep delay (log INFO (LogPreemptive delay) w4)) as [Hc5 Hr5].
    destruct (sleep delay _) as [[[] | e] w5]; frame_done.
  - frame_done.
  - frame_done.
Qed.

(** *** The [except] block *)

(** A failure that is not a rate limit is raised again at once: the
    counter has been incremented, and nothing else has happened. *)
Lemma except_block_other e op_id self w count :
  retry_counts self !! op_id = Some count →
  is_rate_limit e = false →
  except_block e op_id self w
  = (Raise e, set_retry_counts <[op_id := count + 1]> self, w).
Proof.
  intros Hc He. unfold except_block. by rewrite (getitem_Some _ _ _ Hc), He.
Qed.


(** Whatever the [except] block does, it has counted the failure, and it
    calls nothing. *)
Lemma except_block_frame e op_id self w r self' w' :
  except_block e op_id self w = (r, self', w') →
  quiet w w'
  ∧ ((retry_counts self !! op_id = None ∧ self' = self ∧ ∃ ke, r = Raise ke)
     ∨ ∃ count, retry_counts self !! op_id = Some count
                ∧ self' = set_retry_counts <[op_id := count + 1]> self).
Proof.
  unfold except_block, getitem. intros H.
  destruct (retry_counts self !! op_id) as [count |] eqn:Ec.
  2: { simplify_eq. split; [apply quiet_refl | left; eauto]. }
  destruct (is_rate_limit e).
  2: { simplify_eq. split; [apply quiet_refl | right; eauto]. }
  cbn [set_retry_counts rate_limits config backoff] in H.
  destruct (dict_truthy _ && _).
  - destruct (default ∅ (rate_limits self !! op_id) !! "reset") as [v |].
    + match type of H with
      | context [_wait_for_reset ?v ?w0] =>
          pose proof (quiet_wait_for_reset v w0) as Hq;
          destruct (_wait_for_reset v w0) as [r2 w2]
      end.
      simplify_eq. split; [| right; eauto].
      eapply quiet_trans; [apply quiet_log | done].
    + simplify_eq. split; [apply quiet_log | right; eauto].
  - pose proof (quiet_get_delay (backoff self) (count + 1) w) as Hq.
    destruct (BackoffStrategy.get_delay (backoff self) (count + 1) w) as [delay w1].
    pose proof (quiet_sleep delay (log WARNING (LogUnknownReset delay) w1)) as Hq'.
    destruct (sleep delay _) as [r2 w2]. simplify_eq.
    split; [| right; eauto].
    eapply quiet_trans; [done |]. eapply quiet_trans; [apply quiet_log | done].
Qed.

End ExecuteFacts.

(** ** The loop *)

Lemma set_retry_counts_id op_id count self :
  retry_counts self !! op_id = Some count →
  set_retry_counts <[op_id := count]> self = self.
Proof.
  intros H. destruct self as [c b rl rc]. unfold set_retry_counts. cbn in *.
  by rewrite insert_id.
Qed.

Lemma set_retry_counts_twice op_id x y self :
  set_retry_counts <[op_id := y]> (set_retry_counts <[op_id := x]> self)
  = set_retry_counts <[op_id := y]> self.
Proof.
  unfold set_retry_counts. cbn [config backoff rate_limits retry_counts].
  by rewrite insert_insert_eq.
Qed.


Section LoopFacts.

Context {T : Type} (headers_of : T → option (gmap string string)).
Implicit Types (operation : Operation T) (self : RateLimitManager) (w : World).

Lemma iterations_counted op_id self count :
  retry_counts self !! op_id = Some count →
  count < max_retries (config self) →
  iterations op_id self
  = S (iterations op_id (set_retry_counts <[op_id := count + 1]> self)).
Proof.
  intros Hc Hlt. unfold iterations.
  cbn [set_retry_counts config retry_counts].
  rewrite Hc, lookup_insert_eq. cbn [default from_option id]. unfold default. cbn. lia.
Qed.

Lemma iterations_same op_id self self' :
  config self' = config self → retry_counts self' = retry_counts self →
  iterations op_id self' = iterations op_id self.
Proof. intros Hc Hr. unfold iterations. by rewrite Hc, Hr. Qed.

(** The loop ends within [iterations] rounds, and more fuel changes
    nothing. *)
Lemma retry_loop_ends operation op_id (n : nat) :
  ∀ self w, iterations op_id self = n →
    ∃ out, ∀ fuel, (n ≤ fuel)%nat →
      retry_loop headers_of fuel operation op_id self w = Some out.
Proof.
  induction n as [| n IH]; intros self w Hn.
  - destruct (retry_counts self !! op_id) as [count |] eqn:Ec.
    + assert ((count <? max_retries (config self)) = false) as Hge.
      { apply Z.ltb_ge. unfold iterations in Hn. rewrite Ec in Hn.
        unfold default in Hn. cbn in Hn. lia. }
      eexists. intros fuel _.
      destruct fuel; cbn [retry_loop]; rewrite (getitem_Some _ _ _ Ec), Hge;
        reflexivity.
    + eexists. intros fuel _.
      destruct fuel; cbn [retry_loop]; unfold getitem; rewrite Ec; reflexivity.
  - destruct (retry_counts self !! op_id) as [count |] eqn:Ec.
    2: { unfold iterations in Hn. rewrite Ec in Hn. unfold default in Hn.
         eexists. intros fuel _.
         destruct fuel; cbn [retry_loop]; unfold getitem; rewrite Ec; reflexivity. }
    destruct (count <? max_retries (config self)) eqn:Hlt.
    2: { eexists. intros fuel _.
         destruct fuel; cbn [retry_loop]; rewrite (getitem_Some _ _ _ Ec), Hlt;
           reflexivity. }
    apply Z.ltb_lt in Hlt.
    destruct (try_block headers_of operation op_id self w) as [[r self1] w1] eqn:Et.
    destruct (try_block_frame _ _ _ _ _ _ _ _ Et) as (Hcfg & _ & Hrc & _).
    destruct r as [res | e].
    { eexists. intros [| fuel] Hf; [lia |].
      cbn [retry_loop]. rewrite (getitem_Some _ _ _ Ec).
      apply Z.ltb_lt in Hlt. rewrite Hlt, Et. reflexivity. }
    destruct (except_block e op_id self1 w1) as [[r2 self2] w2] eqn:Ee.
    destruct r2 as [[] | e'].
    2: { eexists. intros [| fuel] Hf; [lia |].
         cbn [retry_loop]. rewrite (getitem_Some _ _ _ Ec).
         apply Z.ltb_lt in Hlt. rewrite Hlt, Et, Ee. reflexivity. }
    destruct (except_block_frame _ _ _ _ _ _ _ Ee) as [_ [(_ & _ & ke & ?) | (c' & Hc' & ->)]];
      [done |].
    rewrite Hrc, Ec in Hc'. injection Hc' as <-.
    destruct (IH (set_retry_counts <[op_id := count + 1]> self1) w2) as [out Hout].
    { assert (retry_counts self1 !! op_id = Some count) as Ec1 by (by rewrite Hrc).
      assert (count < max_retries (config self1)) as Hlt1 by (by rewrite Hcfg).
      pose proof (iterations_counted op_id self1 count Ec1 Hlt1) as Hi.
      rewrite (iterations_same op_id self self1 Hcfg Hrc) in Hi. lia. }
    exists out. intros [| fuel] Hf; [lia |].
    cbn [retry_loop]. rewrite (getitem_Some _ _ _ Ec).
    apply Z.ltb_lt in Hlt. rewrite Hlt, Et, Ee.
    apply Hout. lia.
Qed.


End LoopFacts.


(** ** The tests of the module hold of the model *)

Example test_backoff_strategy :
  let d a := fst (BackoffStrategy.get_delay Tests.strategy a Tests.world) in
  d 0 = 1%Q ∧ d 1 = 2%Q ∧ d 2 = 4%Q ∧ d 3 = 8%Q ∧ d 4 = 10%Q.
Proof. repeat split. Qed.

Example test_parse_rate_limit_headers :
  fst (_parse_rate_limit_headers Tests.github_headers Tests.world)
  = Return (snapshot 5000 4999 (inject_Z 1700000000) 1).
Proof. reflexivity. Qed.

Example test_should_retry_logic :
  _should_retry (Tests.manager_with 0) "test_op" Tests.low_quota = Return true
  ∧ _should_retry (Tests.manager_with 0) "test_op" Tests.high_quota = Return false
  ∧ _should_retry (Tests.manager_with 5) "test_op" Tests.high_quota = Return false.
Proof. repeat split; vm_compute; reflexivity. Qed.

Example test_execute_with_retry_rate_limit :
  ∃ self w,
    execute_with_retry Tests.headers_of Tests.fails_once (Some "test_op")
      (__init__ (Some Tests.config_two_retries)) Tests.world
    = Some (Return (Tests.mk_response Tests.github_headers), self, w)
    ∧ calls w = 2%nat.
Proof. eexists _, _. split; vm_compute; reflexivity. Qed.

Example test_reset_counts :
  let after_one := reset_counts (Some "op1") Tests.two_counters in
  retry_counts after_one !! "op1" = None
  ∧ retry_counts after_one !! "op2" = Some 3
  ∧ retry_counts (reset_counts None after_one) = ∅.
Proof. repeat split; vm_compute; reflexivity. Qed.

Example int_literals :
  PyInt.parse "5000" = Some 5000 ∧ PyInt.parse " 12 " = Some 12
  ∧ PyInt.parse "-5" = Some (-5) ∧ PyInt.parse "+5" = Some 5
  ∧ PyInt.parse "1_000" = Some 1000 ∧ PyInt.parse "007" = Some 7.
Proof. repeat split; reflexivity. Qed.

Example int_invalid_literals :
  PyInt.parse "" = None ∧ PyInt.parse "abc" = None ∧ PyInt.parse "1.0" = None
  ∧ PyInt.parse "- 5" = None ∧ PyInt.parse "+-5" = None ∧ PyInt.parse "0x10" = None
  ∧ PyInt.parse "1__0" = None ∧ PyInt.parse "_1" = None ∧ PyInt.parse "1_" = None.
Proof. repeat split; reflexivity. Qed.

Example rate_limit_signature :
  is_rate_limit (mk_exn RuntimeError "API Rate Limit Exceeded (403)") = true
  ∧ is_rate_limit (mk_exn ZeroDivisionError "division by zero") = false.
Proof. split; reflexivity. Qed.

Example fromtimestamp_ranges :
  PyTime.fromtimestamp 0 = Return PyTime.epoch
  ∧ exn_cls <$> (match PyTime.fromtimestamp 253402300800 with Raise e => Some e | _ => None end)
    = Some ValueError
  ∧ exn_cls <$> (match PyTime.fromtimestamp (10 ^ 17) with Raise e => Some e | _ => None end)
    = Some OSError
  ∧ exn_cls <$> (match PyTime.fromtimestamp (2 ^ 63) with Raise e => Some e | _ => None end)
    = Some OverflowError.
Proof. repeat split; reflexivity. Qed.

(** * The claims *)

(** ** Backoff *)




(** ** The proactive decision *)



(** X4. A limit of zero is divided by. *)
Lemma should_retry_divides (self : RateLimitManager) (operation_id : string)
    (rate_info : gmap string value) (count remaining : Z) :
  retry_counts self !! operation_id = Some count →
  count < max_retries (config self) →
  rate_info !! "remaining" = Some (VInt remaining) →
  rate_info !! "limit" = Some (VInt 0) →
  _should_retry self operation_id rate_info
  = Raise (mk_exn ZeroDivisionError "division by zero").
Proof.
  intros Hc Hlt Hrem Hlim. unfold _should_retry.
  rewrite (getitem_Some _ _ _ Hc). cbn [mbind result_bind].
  assert ((max_retries (config self) <=? count) = false) as -> by (apply Z.leb_gt; lia).
  by rewrite (getitem_Some _ _ _ Hrem), (getitem_Some _ _ _ Hlim).
Qed.

(** C2. With a count below [max_retries] and a limit of zero the decision
    does not answer no: the division raises [ZeroDivisionError]. *)
Theorem should_retry_zero_limit :
  retry_counts (Tests.manager_with 0) !! "test_op" = Some 0
  ∧ 0 < max_retries (config (Tests.manager_with 0))
  ∧ Tests.no_quota !! "limit" = Some (VInt 0)
  ∧ _should_retry (Tests.manager_with 0) "test_op" Tests.no_quota
    = Raise (mk_exn ZeroDivisionError "division by zero").
Proof. repeat split. Qed.

(** ** Parsing the quota headers *)

Lemma header_int_non_numeric headers key :
  non_numeric headers key →
  ∃ e, header_int headers key = Raise e ∧ parse_handled e = true.
Proof.
  intros (s & Hs & Hp). unfold header_int, PyInt.of_str. rewrite Hs, Hp. eauto.
Qed.

Lemma header_int_handled headers key e :
  header_int headers key = Raise e → parse_handled e = true.
Proof.
  unfold header_int, PyInt.of_str.
  destruct (headers !! key) as [s |]; [| done].
  destruct (PyInt.parse s); [done |]. by intros [= <-].
Qed.

(** What [gmtime] can break down is a [datetime], or else a year out of
    range: a [ValueError]. *)
Lemma fromtimestamp_gmtime t :
  PyTime.in_range PyTime.gmtime_min PyTime.gmtime_max t = true →
  (∃ d, PyTime.fromtimestamp t = Return d)
  ∨ (∃ e, PyTime.fromtimestamp t = Raise e ∧ parse_handled e = true).
Proof.
  intros H. unfold PyTime.fromtimestamp. rewrite H. cbn [negb].
  assert (PyTime.in_range PyTime.time_t_min PyTime.time_t_max t = true) as ->.
  { unfold PyTime.in_range in *.
    apply andb_true_iff in H as [H1 H2]. apply Z.leb_le in H1, H2.
    apply andb_true_iff. split; apply Z.leb_le.
    - transitivity PyTime.gmtime_min; [by vm_compute | done].
    - transitivity PyTime.gmtime_max; [done | by vm_compute]. }
  cbn [negb].
  destruct (PyTime.in_range PyTime.datetime_min PyTime.datetime_max t); cbn [negb]; eauto.
Qed.

(** Unless the reset time is a number [gmtime] cannot break down, parsing
    never raises: it answers a dictionary, and the empty one after a failure. *)
Lemma parse_total headers w :
  reset_in_range headers →
  ∃ rate_info w', _parse_rate_limit_headers headers w = (Return rate_info, w').
Proof.
  intros Hreset. unfold _parse_rate_limit_headers.
  destruct (parse_fields headers) as [ri | e] eqn:E; [eauto |].
  assert (parse_handled e = true) as ->; [| eauto].
  unfold parse_fields in E.
  destruct (header_int headers "X-RateLimit-Limit") as [l | e1] eqn:E1.
  2: { injection E as <-. by eapply header_int_handled. }
  destruct (header_int headers "X-RateLimit-Remaining") as [r | e2] eqn:E2.
  2: { injection E as <-. by eapply header_int_handled. }
  destruct (header_int headers "X-RateLimit-Reset") as [ts | e3] eqn:E3.
  2: { injection E as <-. by eapply header_int_handled. }
  cbn [mbind result_bind] in E.
  destruct (fromtimestamp_gmtime ts (Hreset ts E3)) as [[d Hd] | (e4 & He4 & Hh)];
    rewrite ?Hd, ?He4 in E.
  2: { by injection E as <-. }
  destruct (header_int headers "X-RateLimit-Used") as [u | e5] eqn:E5.
  2: { injection E as <-. by eapply header_int_handled. }
  done.
Qed.

(** X3. The part of C7 that holds: with such a reset time, a field that is not
    a number gives the empty dictionary, and a warning. *)
Lemma parse_non_numeric headers w key :
  key ∈ recognized → non_numeric headers key → reset_in_range headers →
  ∃ e, _parse_rate_limit_headers headers w
       = (Return ∅, log WARNING (LogParseError e) w).
Proof.
  intros Hkey Hnn Hreset.
  destruct (parse_total headers w Hreset) as (ri & w' & Hp).
  unfold _parse_rate_limit_headers in *.
  destruct (parse_fields headers) as [ri' | e] eqn:E.
  - exfalso. destruct (header_int_non_numeric _ _ Hnn) as (e & He & _).
    unfold parse_fields in E.
    destruct (header_int headers "X-RateLimit-Limit") as [l | e1] eqn:E1; [| done].
    destruct (header_int headers "X-RateLimit-Remaining") as [r | e2] eqn:E2; [| done].
    destruct (header_int headers "X-RateLimit-Reset") as [ts | e3] eqn:E3; [| done].
    cbn [mbind result_bind] in E.
    destruct (PyTime.fromtimestamp ts) as [d | e4]; [| done].
    destruct (header_int headers "X-RateLimit-Used") as [u | e5] eqn:E5; [| done].
    unfold recognized in Hkey.
    repeat (apply elem_of_cons in Hkey as [-> | Hkey]; [congruence |]).
    by apply elem_of_nil in Hkey.
  - destruct (parse_handled e); [eauto | done].
Qed.

(** C7. A reset time that is a number, but one no [time_t] holds, makes
    [datetime.fromtimestamp] raise [OverflowError], which the handler of
    [_parse_rate_limit_headers] does not catch: the headers below, whose
    used count is not a number, do not give the empty dictionary. *)
Theorem parse_overflow_escapes (w : World) :
  non_numeric Tests.overflowing_headers "X-RateLimit-Used"
  ∧ _parse_rate_limit_headers Tests.overflowing_headers w
    = (Raise (mk_exn OverflowError "timestamp out of range for platform time_t"), w).
Proof.
  split.
  - exists "abc". split; reflexivity.
  - unfold _parse_rate_limit_headers.
    assert (parse_fields Tests.overflowing_headers
            = Raise (mk_exn OverflowError "timestamp out of range for platform time_t"))
      as -> by (vm_compute; reflexivity).
    reflexivity.
Qed.

(** ** Resetting the counters *)

(** The empty string is no id: [reset_counts("")] clears every counter. *)
Lemma reset_counts_empty_string (self : RateLimitManager) :
  reset_counts (Some "") self = reset_counts None self.
Proof. reflexivity. Qed.



(** Looking a rate limit up sees the same before and after a reset. *)
Lemma reset_counts_rate_limit_info (self : RateLimitManager) (operation_id : option string)
    (id : string) :
  get_rate_limit_info (reset_counts operation_id self) id = get_rate_limit_info self id.
Proof.
  unfold get_rate_limit_info, reset_counts.
  destruct operation_id as [s |]; [destruct (bool_decide (s = "")) |]; reflexivity.
Qed.

(** ** [execute_with_retry] *)


Section ExecuteClaims.

Context {T : Type} (headers_of : T → option (gmap string string)).
Implicit Types (operation : Operation T) (self : RateLimitManager) (w : World).

(** [setdefault], then the loop. *)
Lemma execute_with_retry_start operation operation_id self w :
  let op_id := resolve_id operation operation_id in
  let self0 := set_retry_counts <[op_id := count_of self op_id]> self in
  execute_with_retry headers_of operation operation_id self w
  = retry_loop headers_of (iterations op_id self0) operation op_id self0 w
  ∧ retry_counts self0 !! op_id = Some (count_of self op_id)
  ∧ (manager_ok self → manager_ok self0).
Proof.
  intros op_id self0. split; [| split; [apply lookup_insert_eq | done]].
  unfold execute_with_retry, self0, count_of. fold op_id.
  destruct (retry_counts self !! op_id) as [count |] eqn:Ec.
  - unfold default. cbn [from_option id]. by rewrite (set_retry_counts_id _ _ _ Ec).
  - reflexivity.
Qed.

(** X1. The call always ends. *)
Lemma execute_with_retry_total operation operation_id self w :
  is_Some (execute_with_retry headers_of operation operation_id self w).
Proof.
  destruct (execute_with_retry_start operation operation_id self w) as (-> & _).
  set (op_id := resolve_id operation operation_id).
  set (self0 := set_retry_counts <[op_id := count_of self op_id]> self).
  destruct (retry_loop_ends headers_of operation op_id (iterations op_id self0)
              self0 w eq_refl) as [out Hout].
  rewrite (Hout _ (Nat.le_refl _)). eauto.
Qed.

(** C9. A count that has reached [max_retries] when the call starts ends
    it at once: the error is raised, the operation is not invoked, and
    neither the manager nor the world has changed. *)
Theorem execute_exhausted_at_entry operation operation_id self w count :
  retry_counts self !! resolve_id operation operation_id = Some count →
  max_retries (config self) ≤ count →
  execute_with_retry headers_of operation operation_id self w
  = Some (Raise (retry_exhausted (resolve_id operation operation_id) self), self, w).
Proof.
  intros Hc Hge. unfold execute_with_retry. rewrite Hc.
  assert ((count <? max_retries (config self)) = false) as Hlt by (apply Z.ltb_ge; lia).
  destruct (iterations _ self); cbn [retry_loop];
    by rewrite (getitem_Some _ _ _ Hc), Hlt.
Qed.




End ExecuteClaims.

Section ExecuteRecovery.

Context {T : Type} (headers_of : T → option (gmap string string)).
Implicit Types (operation : Operation T) (self : RateLimitManager) (w : World).




End ExecuteRecovery.

(** ** The claims at the inputs of the tests *)






Lemma parse_non_numeric_witness :
  ∃ e, _parse_rate_limit_headers (<["X-RateLimit-Limit" := "many"]> Tests.github_headers)
         Tests.world
       = (Return ∅, log WARNING (LogParseError e) Tests.world).
Proof.
  apply (parse_non_numeric (<["X-RateLimit-Limit" := "many"]> Tests.github_headers)
           Tests.world "X-RateLimit-Limit").
  - apply elem_of_cons. by left.
  - exists "many". split; reflexivity.
  - intros ts Hts. vm_compute in Hts. injection Hts as <-. reflexivity.
Defined.

Lemma should_retry_divides_witness :
  _should_retry (Tests.manager_with 0) "test_op" Tests.no_quota
  = Raise (mk_exn ZeroDivisionError "division by zero").
Proof.
  apply (should_retry_divides (Tests.manager_with 0) "test_op" Tests.no_quota 0 0);
    [reflexivity | cbn; lia | reflexivity | reflexivity].
Defined.

Lemma execute_exhausted_at_entry_witness :
  execute_with_retry Tests.headers_of Tests.always_boom (Some "test_op")
    (Tests.manager_with 5) Tests.world
  = Some (Raise (retry_exhausted
                   (resolve_id Tests.always_boom (Some "test_op")) (Tests.manager_with 5)),
          Tests.manager_with 5, Tests.world).
Proof.
  apply (execute_exhausted_at_entry Tests.headers_of Tests.always_boom (Some "test_op")
           (Tests.manager_with 5) Tests.world 5); [reflexivity | cbn; lia].
Defined.







(** * More of the module

    What the claims leave out: what a call changes and counts, the paths of
    a call that succeeds at once, the two ways of waiting, the round trip
    of the headers, the exception of the module. *)

(** ** What a call changes, and what it counts *)

Lemma same_but_refl op_id self : same_but op_id self self.
Proof. by repeat split. Qed.

Lemma same_but_trans op_id self1 self2 self3 :
  same_but op_id self1 self2 → same_but op_id self2 self3 → same_but op_id self1 self3.
Proof.
  intros (Hc & Hb & Ho) (Hc' & Hb' & Ho').
  split; [congruence |]. split; [congruence |].
  intros other Hne. destruct (Ho other Hne) as [? ?], (Ho' other Hne) as [? ?].
  split; congruence.
Qed.

Lemma same_but_set_retry_counts op_id count self :
  same_but op_id self (set_retry_counts <[op_id := count]> self).
Proof.
  split; [done |]. split; [done |]. intros other Hne.
  split; [| done]. cbn [set_retry_counts retry_counts]. by apply lookup_insert_ne.
Qed.

Section ExecuteAccounting.

Context {T : Type} (headers_of : T → option (gmap string string)).
Implicit Types (operation : Operation T) (self : RateLimitManager) (w : World).

(** The [try] block touches the rate limit of [op_id] and nothing else,
    and what it stores is a parsed dictionary. *)
Lemma try_block_same_but operation op_id self w r self' w' :
  try_block headers_of operation op_id self w = (r, self', w') →
  same_but op_id self self' ∧ (manager_ok self → manager_ok self').
Proof.
  intros H.
  destruct (try_block_frame _ _ _ _ _ _ _ _ H) as (Hc & Hb & Hrc & _ & _ & Hrl).
  split.
  - split; [done |]. split; [done |]. intros other Hne. split; [by rewrite Hrc |].
    destruct Hrl as [-> | (l & rm & t & u & ->)]; [done |]. by apply lookup_insert_ne.
  - intros [Hbo Hs]. split; [by rewrite Hb |].
    intros id rate_info Hid.
    destruct Hrl as [Hrl | (l & rm & t & u & Hrl)]; rewrite Hrl in Hid; [by eapply Hs |].
    destruct (decide (id = op_id)) as [-> | Hne].
    + rewrite lookup_insert_eq in Hid. injection Hid as <-. apply snapshot_is_ok.
    + rewrite lookup_insert_ne in Hid by done. by eapply Hs.
Qed.

(** A result that comes out of the [try] block is what the operation
    returned. *)
Lemma try_block_result operation op_id self w res self' w' :
  try_block headers_of operation op_id self w = (Return res, self', w') →
  op_call operation (calls w) = Return res.
Proof.
  unfold try_block, invoke. intros H.
  destruct (op_call operation (calls w)) as [res0 | e]; [| discriminate].
  destruct (headers_of res0) as [headers |]; [| by injection H as -> _ _].
  destruct (_parse_rate_limit_headers headers _) as [[rate_info | e] w2];
    [| discriminate].
  destruct (dict_truthy rate_info); [| by injection H as -> _ _].
  destruct (_should_retry _ op_id _) as [[|] | e]; [| by injection H as -> _ _ | discriminate].
  destruct (getitem _ op_id) as [count | e]; [| discriminate].
  destruct (BackoffStrategy.get_delay _ count _) as [delay w4].
  destruct (sleep delay _) as [[[] | e] w5]; [by injection H as -> _ _ | discriminate].
Qed.

(** The loop, from any point where the counter of [op_id] exists. *)
Lemma retry_loop_outcome operation op_id (fuel : nat) :
  ∀ self w count r self' w',
    retry_counts self !! op_id = Some count →
    retry_loop headers_of fuel operation op_id self w = Some (r, self', w') →
    same_but op_id self self'
    ∧ (manager_ok self → manager_ok self')
    ∧ rand w' = rand w
    ∧ ∃ n : nat,
        calls w' = (calls w + n)%nat
        ∧ Z.of_nat n ≤ Z.max 0 (max_retries (config self) - count)
        ∧ (count < max_retries (config self) → (1 ≤ n)%nat)
        ∧ retry_counts self' !! op_id = Some (count + Z.of_nat n - returned r)
        ∧ ∀ res, r = Return res →
            (1 ≤ n)%nat ∧ op_call operation (calls w + n - 1) = Return res.
Proof.
  induction fuel as [| fuel IH]; intros self w count r self' w' Hc H.
  - cbn [retry_loop] in H. rewrite (getitem_Some _ _ _ Hc) in H.
    destruct (count <? max_retries (config self)) eqn:Hlt; [discriminate |].
    injection H as <- <- <-.
    split; [apply same_but_refl |]. split; [done |]. split; [done |].
    apply Z.ltb_ge in Hlt.
    exists 0%nat. rewrite Nat.add_0_r, Hc. cbn [returned].
    split; [done |]. split; [lia |]. split; [lia |]. split; [f_equal; lia | done].
  - cbn [retry_loop] in H. rewrite (getitem_Some _ _ _ Hc) in H.
    destruct (count <? max_retries (config self)) eqn:Hlt.
    2: { injection H as <- <- <-.
         split; [apply same_but_refl |]. split; [done |]. split; [done |].
         apply Z.ltb_ge in Hlt.
         exists 0%nat. rewrite Nat.add_0_r, Hc. cbn [returned].
         split; [done |]. split; [lia |]. split; [lia |]. split; [f_equal; lia | done]. }
    apply Z.ltb_lt in Hlt.
    destruct (try_block headers_of operation op_id self w) as [[r1 self1] w1] eqn:Et.
    destruct (try_block_frame _ _ _ _ _ _ _ _ Et) as (Hcfg & _ & Hrc & Hcalls & Hrand & _).
    destruct (try_block_same_but _ _ _ _ _ _ _ Et) as [Hsame Hok].
    destruct r1 as [res | e].
    { injection H as <- <- <-.
      split; [done |]. split; [done |]. split; [done |].
      exists 1%nat. rewrite Hrc, Hc. cbn [returned].
      split; [lia |]. split; [lia |]. split; [lia |]. split; [f_equal; lia |].
      intros res' [= <-]. split; [lia |].
      replace (calls w + 1 - 1)%nat with (calls w) by lia.
      by eapply try_block_result. }
    destruct (except_block e op_id self1 w1) as [[r2 self2] w2] eqn:Ee.
    destruct (except_block_frame _ _ _ _ _ _ _ Ee)
      as [[Hcalls2 Hrand2] [(Hnone & _) | (c' & Hc' & ->)]].
    { rewrite Hrc, Hc in Hnone. discriminate. }
    rewrite Hrc, Hc in Hc'. injection Hc' as <-.
    set (self2 := set_retry_counts <[op_id := count + 1]> self1) in *.
    assert (same_but op_id self self2) as Hsame2.
    { eapply same_but_trans; [done | apply same_but_set_retry_counts]. }
    destruct r2 as [[] | e'].
    2: { injection H as <- <- <-.
         split; [done |]. split; [done |]. split; [congruence |].
         exists 1%nat. cbn [returned].
         split; [lia |]. split; [lia |]. split; [lia |].
         split; [rewrite Z.sub_0_r; apply lookup_insert_eq | done]. }
    destruct (IH self2 w2 (count + 1) r self' w') as (Hs & Hk & Hr & n & Hn & Hle & _ & Hcount & Hres);
      [apply lookup_insert_eq | done |].
    split; [by eapply same_but_trans |]. split; [by auto |]. split; [congruence |].
    exists (S n). split; [lia |].
    change (config self2) with (config self1) in Hle. rewrite Hcfg in Hle.
    split; [lia |]. split; [lia |]. split.
    + rewrite Hcount. f_equal. lia.
    + intros res Hr0. destruct (Hres res Hr0) as [Hn1 Hop]. split; [lia |].
      rewrite <- Hop. f_equal. lia.
Qed.

End ExecuteAccounting.

Section ExecuteOutcome.

Context {T : Type} (headers_of : T → option (gmap string string)).
Implicit Types (operation : Operation T) (self : RateLimitManager) (w : World).

(** The call as a loop that starts where the counter exists. *)
Lemma execute_with_retry_outcome operation operation_id self w r self' w' :
  execute_with_retry headers_of operation operation_id self w = Some (r, self', w') →
  let op_id := resolve_id operation operation_id in
  same_but op_id self self'
  ∧ (manager_ok self → manager_ok self')
  ∧ rand w' = rand w
  ∧ ∃ n : nat,
      calls w' = (calls w + n)%nat
      ∧ Z.of_nat n ≤ Z.max 0 (max_retries (config self) - count_of self op_id)
      ∧ (count_of self op_id < max_retries (config self) → (1 ≤ n)%nat)
      ∧ retry_counts self' !! op_id = Some (count_of self op_id + Z.of_nat n - returned r)
      ∧ ∀ res, r = Return res →
          (1 ≤ n)%nat ∧ op_call operation (calls w + n - 1) = Return res.
Proof.
  intros H op_id.
  destruct (execute_with_retry_start headers_of operation operation_id self w)
    as (Hstart & Hc0 & Hok0).
  fold op_id in Hstart, Hc0, Hok0. rewrite Hstart in H.
  destruct (retry_loop_outcome headers_of operation op_id _ _ _ _ _ _ _ Hc0 H)
    as (Hs & Hk & Hr & Hn).
  split; [| split; [by auto | split; [done | done]]].
  eapply same_but_trans; [apply same_but_set_retry_counts | done].
Qed.

(** X5. Operations do not share anything: a call changes neither the
    configuration, nor the backoff, nor the counter or the rate limit of
    any other operation id; it draws from the same random source; and a
    manager that was well formed still is. *)
Theorem execute_with_retry_isolated operation operation_id self w r self' w' :
  execute_with_retry headers_of operation operation_id self w = Some (r, self', w') →
  same_but (resolve_id operation operation_id) self self'
  ∧ (manager_ok self → manager_ok self')
  ∧ rand w' = rand w.
Proof.
  intros H.
  destruct (execute_with_retry_outcome _ _ _ _ _ _ _ H) as (Hs & Hk & Hr & _).
  exact (conj Hs (conj Hk Hr)).
Qed.

(** X6. The budget: a call invokes the operation at most
    [max_retries - count] times, where [count] is what the counter held
    when the call began, and at least once when that leaves anything; and
    the counter goes up by one for every invocation, but for the one whose
    result the call returns. *)
Theorem execute_with_retry_budget operation operation_id self w r self' w' :
  execute_with_retry headers_of operation operation_id self w = Some (r, self', w') →
  let op_id := resolve_id operation operation_id in
  ∃ n : nat,
    calls w' = (calls w + n)%nat
    ∧ Z.of_nat n ≤ Z.max 0 (max_retries (config self) - count_of self op_id)
    ∧ (count_of self op_id < max_retries (config self) → (1 ≤ n)%nat)
    ∧ retry_counts self' !! op_id = Some (count_of self op_id + Z.of_nat n - returned r).
Proof.
  intros H op_id.
  destruct (execute_with_retry_outcome _ _ _ _ _ _ _ H)
    as (_ & _ & _ & n & Hn & Hle & Hge & Hcount & _).
  exists n. exact (conj Hn (conj Hle (conj Hge Hcount))).
Qed.

(** X7. What a call returns is what the operation returned, at the last of
    its invocations. *)
Theorem execute_with_retry_result operation operation_id self w res self' w' :
  execute_with_retry headers_of operation operation_id self w
  = Some (Return res, self', w') →
  (calls w < calls w')%nat
  ∧ op_call operation (calls w' - 1) = Return res.
Proof.
  intros H.
  destruct (execute_with_retry_outcome _ _ _ _ _ _ _ H)
    as (_ & _ & _ & n & Hn & _ & _ & _ & Hres).
  destruct (Hres res eq_refl) as [Hn1 Hop]. rewrite Hn. split; [lia | done].
Qed.

End ExecuteOutcome.

(** ** A call that succeeds at once *)

Lemma should_retry_snapshot (self : RateLimitManager) (op_id : string)
    (count l rm : Z) (t : PyTime.datetime) (u : Z) :
  retry_counts self !! op_id = Some count →
  count < max_retries (config self) →
  _should_retry self op_id (snapshot l rm t u)
  = if l =? 0 then Raise (mk_exn ZeroDivisionError "division by zero")
    else Return (Qleb (inject_Z rm / inject_Z l) (rate_limit_threshold (config self))).
Proof.
  intros Hc Hlt. unfold _should_retry.
  rewrite (getitem_Some _ _ _ Hc). cbn [mbind result_bind].
  assert ((max_retries (config self) <=? count) = false) as -> by (apply Z.leb_gt; lia).
  rewrite (getitem_Some _ _ _ (snapshot_lookup_remaining _ _ _ _)).
  rewrite (getitem_Some _ _ _ (snapshot_lookup_limit _ _ _ _)).
  cbn [mbind result_bind truediv]. by destruct (l =? 0).
Qed.

(** A dictionary that is not empty is what the fields parsed to. *)
Lemma parse_truthy headers w rate_info :
  (_parse_rate_limit_headers headers w).1 = Return rate_info →
  dict_truthy rate_info = true →
  ∃ l rm t u, rate_info = snapshot l rm t u
              ∧ ∀ w0, _parse_rate_limit_headers headers w0
                      = (Return (snapshot l rm t u), w0).
Proof.
  unfold _parse_rate_limit_headers. intros H Ht.
  destruct (parse_fields headers) as [ri | e] eqn:E.
  - cbn [fst] in H. injection H as ->.
    destruct (parse_fields_snapshot _ _ E) as (l & rm & t & u & ->). eauto 10.
  - destruct (parse_handled e); cbn [fst] in H; [| discriminate].
    injection H as <-. by rewrite (@dict_truthy_empty value) in Ht.
Qed.



Section ExecuteSuccess.

Context {T : Type} (headers_of : T → option (gmap string string)).
Implicit Types (operation : Operation T) (self : RateLimitManager) (w : World).

(** The [try] block, when the operation answers with headers that parse. *)
Lemma try_block_stored operation op_id self w res headers l rm t u count :
  retry_counts self !! op_id = Some count →
  count < max_retries (config self) →
  op_call operation (calls w) = Return res →
  headers_of res = Some headers →
  _parse_rate_limit_headers headers (invoke operation w).2
  = (Return (snapshot l rm t u), (invoke operation w).2) →
  let self1 := set_rate_limits <[op_id := snapshot l rm t u]> self in
  let w3 := log INFO (LogStatus op_id (snapshot l rm t u)) (invoke operation w).2 in
  let d := BackoffStrategy.get_delay (backoff self) count w3 in
  let s := sleep d.1 (log INFO (LogPreemptive d.1) d.2) in
  try_block headers_of operation op_id self w
  = if l =? 0 then (Raise (mk_exn ZeroDivisionError "division by zero"), self1, w3)
    else if Qleb (inject_Z rm / inject_Z l) (rate_limit_threshold (config self)) then
      match s.1 with
      | Return _ => (Return res, self1, s.2)
      | Raise e => (Raise e, self1, s.2)
      end
    else (Return res, self1, w3).
Proof.
  intros Hc Hlt Hop Hh Hp self1 w3 d s.
  unfold try_block. unfold invoke in *. cbn [snd] in *. rewrite Hop, Hh, Hp.
  rewrite snapshot_truthy.
  rewrite (should_retry_snapshot _ op_id count) by done.
  destruct (l =? 0); [done |].
  change (config (set_rate_limits _ self)) with (config self).
  destruct (Qleb _ _); [| done].
  change (retry_counts (set_rate_limits <[op_id := snapshot l rm t u]> self))
    with (retry_counts self).
  rewrite (getitem_Some _ _ _ Hc).
  change (backoff (set_rate_limits <[op_id := snapshot l rm t u]> self))
    with (backoff self).
  subst s d w3.
  destruct (BackoffStrategy.get_delay (backoff self) count _) as [delay w4].
  cbn [fst snd]. by destruct (sleep delay _) as [[[] | e] w5].
Qed.

(** After [setdefault] the loop runs at least once when the count is below
    [max_retries]. *)
Lemma execute_with_retry_round operation operation_id self w :
  let op_id := resolve_id operation operation_id in
  let self0 := set_retry_counts <[op_id := count_of self op_id]> self in
  count_of self op_id < max_retries (config self) →
  execute_with_retry headers_of operation operation_id self w
  = match try_block headers_of operation op_id self0 w with
    | (Return res, self1, w1) => Some (Return res, self1, w1)
    | (Raise e, self1, w1) =>
        match except_block e op_id self1 w1 with
        | (Raise e', self2, w2) => Some (Raise e', self2, w2)
        | (Return _, self2, w2) =>
            retry_loop headers_of (Nat.pred (iterations op_id self0)) operation op_id self2 w2
        end
    end.
Proof.
  intros op_id self0 Hlt.
  destruct (execute_with_retry_start headers_of operation operation_id self w)
    as (-> & Hc0 & _).
  fold op_id self0 in Hc0 |- *.
  assert (∃ fuel, iterations op_id self0 = S fuel) as [fuel Hf].
  { exists (Nat.pred (iterations op_id self0)).
    unfold iterations. rewrite Hc0. unfold default. cbn [from_option id].
    change (config self0) with (config self). lia. }
  rewrite Hf. cbn [retry_loop Nat.pred].
  rewrite (getitem_Some _ _ _ Hc0).
  assert ((count_of self op_id <? max_retries (config self0)) = true) as ->
    by (by apply Z.ltb_lt).
  reflexivity.
Qed.


(** X9. A result whose headers give a limit of zero, as every result does that
    has headers without [X-RateLimit-Limit], is not returned: the division
    raises [ZeroDivisionError], which comes out of the call; the attempt
    has been counted, and the dictionary stored. *)
Theorem execute_zero_limit operation operation_id self w res headers rate_info :
  count_of self (resolve_id operation operation_id) < max_retries (config self) →
  op_call operation (calls w) = Return res →
  headers_of res = Some headers →
  (_parse_rate_limit_headers headers w).1 = Return rate_info →
  rate_info !! "limit" = Some (VInt 0) →
  ∃ self',
    execute_with_retry headers_of operation operation_id self w
    = Some (Raise (mk_exn ZeroDivisionError "division by zero"), self',
            log INFO (LogStatus (resolve_id operation operation_id) rate_info)
              (invoke operation w).2)
    ∧ get_rate_limit_info self' (resolve_id operation operation_id) = rate_info
    ∧ retry_counts self' !! resolve_id operation operation_id
      = Some (count_of self (resolve_id operation operation_id) + 1).
Proof.
  intros Hlt Hop Hh Hp Hl.
  rewrite (execute_with_retry_round operation operation_id self w Hlt).
  set (op_id := resolve_id operation operation_id) in *.
  set (count := count_of self op_id) in *.
  set (self0 := set_retry_counts <[op_id := count]> self).
  assert (retry_counts self0 !! op_id = Some count) as Hc0 by apply lookup_insert_eq.
  assert (dict_truthy rate_info = true) as Ht.
  { apply dict_truthy_nonempty. intros ->. by rewrite lookup_empty in Hl. }
  destruct (parse_truthy _ _ _ Hp Ht) as (l & rm & t & u & -> & Hp').
  specialize (Hp' (invoke operation w).2).
  rewrite (try_block_stored operation op_id self0 w res headers l rm t u count Hc0 Hlt Hop Hh Hp').
  rewrite snapshot_lookup_limit in Hl. injection Hl as ->.
  change (0 =? 0) with true. cbv iota.
  set (self1 := set_rate_limits <[op_id := snapshot 0 rm t u]> self0).
  rewrite (except_block_other _ op_id self1 _ count); [| done | reflexivity].
  eexists. split; [reflexivity |]. split.
  - unfold get_rate_limit_info. cbn [set_retry_counts set_rate_limits rate_limits self1].
    by rewrite lookup_insert_eq.
  - cbn [set_retry_counts retry_counts]. apply lookup_insert_eq.
Qed.


End ExecuteSuccess.

(** ** [int(str(n))] *)









(** ** Parsing what [str] wrote *)


(** ** [RateLimitException] *)

(** X12. The exception of the module is one the retry loop takes for a rate
    limit, whatever the numbers and the date in its message. *)
Theorem rate_limit_exception_signature (isoformat : PyTime.datetime → string)
    (reset_time : PyTime.datetime) (remaining limit : Z) :
  is_rate_limit (RateLimitException isoformat reset_time remaining limit) = true.
Proof. reflexivity. Qed.

(** ** Backoff *)


(** ** Waiting *)


Section ExecuteBackoff.

Context {T : Type} (headers_of : T → option (gmap string string)).
Implicit Types (operation : Operation T) (self : RateLimitManager) (w : World).



End ExecuteBackoff.

(** ** The tests of the module, once more *)

Example test_execute_with_retry_success :
  ∃ self w,
    execute_with_retry Tests.headers_of Tests.succeeds (Some "test_op")
      (__init__ None) Tests.world
    = Some (Return (Tests.mk_response Tests.github_headers), self, w)
    ∧ calls w = 1%nat.
Proof. eexists _, _. split; vm_compute; reflexivity. Qed.

Example test_rate_limit_exception :
  let e := RateLimitException (fun _ => "2023-11-14T22:13:20+00:00")
             (inject_Z 1700000000) 0 5000 in
  String.prefix "Rate limit exceeded" (exn_msg e) = true
  ∧ PyStr.contains "0/5000 remaining" (exn_msg e) = true
  ∧ PyStr.contains "2023-11-14T22:13:20+00:00" (exn_msg e) = true.
Proof. repeat split; vm_compute; reflexivity. Qed.

Section ExecuteLoop.

Context {T : Type} (headers_of : T → option (gmap string string)).
Implicit Types (operation : Operation T) (self : RateLimitManager) (w : World).




End ExecuteLoop.

(** ** A result whose headers do not parse *)

(** What [_parse_rate_limit_headers] lets through is one of the two errors
    of [datetime.fromtimestamp] that its handler does not name. *)
Lemma parse_raises headers w e :
  (_parse_rate_limit_headers headers w).1 = Raise e →
  (e = mk_exn OverflowError "timestamp out of range for platform time_t"
   ∨ e = mk_exn OSError "[Errno 75] Value too large for defined data type")
  ∧ ∀ w0, _parse_rate_limit_headers headers w0 = (Raise e, w0).
Proof.
  unfold _parse_rate_limit_headers. intros H.
  destruct (parse_fields headers) as [ri | e0] eqn:E; [discriminate |].
  destruct (parse_handled e0) eqn:Eh; [discriminate |].
  cbn [fst] in H. injection H as ->. split; [| done].
  unfold parse_fields in E.
  destruct (header_int headers "X-RateLimit-Limit") as [l | e1] eqn:E1.
  2: { injection E as <-. by rewrite (header_int_handled _ _ _ E1) in Eh. }
  destruct (header_int headers "X-RateLimit-Remaining") as [rm | e2] eqn:E2.
  2: { injection E as <-. by rewrite (header_int_handled _ _ _ E2) in Eh. }
  destruct (header_int headers "X-RateLimit-Reset") as [ts | e3] eqn:E3.
  2: { injection E as <-. by rewrite (header_int_handled _ _ _ E3) in Eh. }
  cbn [mbind result_bind] in E.
  unfold PyTime.fromtimestamp in E.
  destruct (negb (PyTime.in_range PyTime.time_t_min PyTime.time_t_max ts)).
  { injection E as <-. by left. }
  destruct (negb (PyTime.in_range PyTime.gmtime_min PyTime.gmtime_max ts)).
  { injection E as <-. by right. }
  destruct (negb (PyTime.in_range PyTime.datetime_min PyTime.datetime_max ts)).
  { injection E as <-. discriminate. }
  cbn [mbind result_bind] in E.
  destruct (header_int headers "X-RateLimit-Used") as [u | e5] eqn:E5; [discriminate |].
  injection E as <-. by rewrite (header_int_handled _ _ _ E5) in Eh.
Qed.

Section ExecuteParseFailure.

Context {T : Type} (headers_of : T → option (gmap string string)).
Implicit Types (operation : Operation T) (self : RateLimitManager) (w : World).

(** X20. A result whose headers make [_parse_rate_limit_headers] raise, as
    a reset time does that is a number too large for [gmtime], is not
    returned: the [OverflowError] or [OSError] comes out of the call in its
    place. The attempt has been counted; nothing is stored, logged or
    waited for. *)
Theorem execute_parse_failure operation operation_id self w res headers e :
  count_of self (resolve_id operation operation_id) < max_retries (config self) →
  op_call operation (calls w) = Return res →
  headers_of res = Some headers →
  (_parse_rate_limit_headers headers w).1 = Raise e →
  (exn_cls e = OverflowError ∨ exn_cls e = OSError)
  ∧ execute_with_retry headers_of operation operation_id self w
    = Some (Raise e,
            set_retry_counts
              <[resolve_id operation operation_id
                := count_of self (resolve_id operation operation_id) + 1]> self,
            (invoke operation w).2).
Proof.
  intros Hlt Hop Hh Hp.
  destruct (parse_raises _ _ _ Hp) as [He Hp'].
  split; [destruct He as [-> | ->]; [by left | by right] |].
  rewrite (execute_with_retry_round headers_of operation operation_id self w Hlt).
  set (op_id := resolve_id operation operation_id) in *.
  set (count := count_of self op_id) in *.
  set (self0 := set_retry_counts <[op_id := count]> self).
  assert (retry_counts self0 !! op_id = Some count) as Hc0 by apply lookup_insert_eq.
  assert (try_block headers_of operation op_id self0 w
          = (Raise e, self0, (invoke operation w).2)) as ->.
  { unfold try_block. unfold invoke in *. cbn [snd]. by rewrite Hop, Hh, Hp'. }
  rewrite (except_block_other _ op_id self0 _ count Hc0).
  - unfold self0. by rewrite set_retry_counts_twice.
  - destruct He as [-> | ->]; reflexivity.
Qed.

End ExecuteParseFailure.

(** ** At the inputs of the tests *)

(** ** The outcome of a call, at the inputs of the tests *)

Lemma execute_with_retry_isolated_witness :
  ∃ r self' w',
    execute_with_retry Tests.headers_of Tests.fails_once (Some "test_op")
      (__init__ (Some Tests.config_two_retries)) Tests.world
    = Some (r, self', w')
    ∧ same_but (resolve_id Tests.fails_once (Some "test_op"))
        (__init__ (Some Tests.config_two_retries)) self'
    ∧ (manager_ok (__init__ (Some Tests.config_two_retries)) → manager_ok self')
    ∧ rand w' = rand Tests.world.
Proof.
  eexists _, _, _. split; [vm_compute; reflexivity |].
  eapply (execute_with_retry_isolated Tests.headers_of Tests.fails_once (Some "test_op")
           (__init__ (Some Tests.config_two_retries)) Tests.world).
  vm_compute. reflexivity.
Defined.

Lemma execute_with_retry_budget_witness :
  ∃ r self' w',
    execute_with_retry Tests.headers_of Tests.fails_once (Some "test_op")
      (__init__ (Some Tests.config_two_retries)) Tests.world
    = Some (r, self', w')
    ∧ ∃ n : nat,
        calls w' = (calls Tests.world + n)%nat
        ∧ Z.of_nat n ≤ Z.max 0 (2 - 0)
        ∧ (0 < 2 → (1 ≤ n)%nat)
        ∧ retry_counts self' !! "test_op" = Some (0 + Z.of_nat n - returned r).
Proof.
  eexists _, _, _. split; [vm_compute; reflexivity |].
  apply (execute_with_retry_budget Tests.headers_of Tests.fails_once (Some "test_op")
           (__init__ (Some Tests.config_two_retries)) Tests.world).
  vm_compute. reflexivity.
Defined.

Lemma execute_with_retry_result_witness :
  ∃ self' w',
    execute_with_retry Tests.headers_of Tests.fails_once (Some "test_op")
      (__init__ (Some Tests.config_two_retries)) Tests.world
    = Some (Return (Tests.mk_response Tests.github_headers), self', w')
    ∧ (calls Tests.world < calls w')%nat
    ∧ op_call Tests.fails_once (calls w' - 1)
      = Return (Tests.mk_response Tests.github_headers).
Proof.
  eexists _, _. split; [vm_compute; reflexivity |].
  eapply (execute_with_retry_result Tests.headers_of Tests.fails_once (Some "test_op")
           (__init__ (Some Tests.config_two_retries)) Tests.world).
  vm_compute. reflexivity.
Defined.


Lemma execute_zero_limit_witness :
  ∃ self',
    execute_with_retry Tests.headers_of Tests.succeeds_bare (Some "test_op")
      (__init__ None) Tests.world
    = Some (Raise (mk_exn ZeroDivisionError "division by zero"), self',
            log INFO (LogStatus (resolve_id Tests.succeeds_bare (Some "test_op"))
                        (snapshot 0 0 PyTime.epoch 0))
              (invoke Tests.succeeds_bare Tests.world).2)
    ∧ get_rate_limit_info self' (resolve_id Tests.succeeds_bare (Some "test_op"))
      = snapshot 0 0 PyTime.epoch 0
    ∧ retry_counts self' !! resolve_id Tests.succeeds_bare (Some "test_op")
      = Some (count_of (__init__ None) (resolve_id Tests.succeeds_bare (Some "test_op")) + 1).
Proof.
  apply (execute_zero_limit Tests.headers_of Tests.succeeds_bare (Some "test_op")
           (__init__ None) Tests.world (Tests.mk_response ∅) ∅
           (snapshot 0 0 PyTime.epoch 0)).
  - vm_compute. reflexivity.
  - reflexivity.
  - reflexivity.
  - vm_compute. reflexivity.
  - reflexivity.
Defined.









Lemma execute_parse_failure_witness :
  (exn_cls (mk_exn OverflowError "timestamp out of range for platform time_t")
   = OverflowError
   ∨ exn_cls (mk_exn OverflowError "timestamp out of range for platform time_t") = OSError)
  ∧ execute_with_retry Tests.headers_of Tests.succeeds_overflowing (Some "test_op")
      (__init__ None) Tests.world
    = Some (Raise (mk_exn OverflowError "timestamp out of range for platform time_t"),
            set_retry_counts
              <[resolve_id Tests.succeeds_overflowing (Some "test_op")
                := count_of (__init__ None)
                     (resolve_id Tests.succeeds_overflowing (Some "test_op")) + 1]>
              (__init__ None),
            (invoke Tests.succeeds_overflowing Tests.world).2).
Proof.
  apply (execute_parse_failure Tests.headers_of Tests.succeeds_overflowing (Some "test_op")
           (__init__ None) Tests.world (Tests.mk_response Tests.overflowing_headers)
           Tests.overflowing_headers).
  - vm_compute. reflexivity.
  - reflexivity.
  - reflexivity.
  - vm_compute. reflexivity.
Defined.

(** * The Bedrock validator *)

Lemma target_model_found (model_id : string) (l : list Bedrock.ModelSummary)
    (m : Bedrock.ModelSummary) :
  Bedrock.target_model model_id l = Return (Some m) →
  m ∈ l ∧ Bedrock.modelId m = Some model_id.
Proof.
  induction l as [| x l IH]; [discriminate |].
  cbn [Bedrock.target_model]. unfold Bedrock.getitem_modelId.
  destruct (Bedrock.modelId x) as [id |] eqn:Ex; [| discriminate].
  cbn [mbind result_bind]. case_bool_decide as Hid.
  - intros [= <-]. split; [apply elem_of_cons; by left | by rewrite Ex, Hid].
  - intros H. destruct (IH H) as [Hin Hm]. split; [| done].
    apply elem_of_cons. by right.
Qed.

Lemma target_model_none (model_id : string) (l : list Bedrock.ModelSummary) :
  Forall (λ x, ∃ id, Bedrock.modelId x = Some id ∧ id ≠ model_id) l →
  Bedrock.target_model model_id l = Return None.
Proof.
  induction 1 as [| x l (id & Hx & Hne) _ IH]; [done |].
  cbn [Bedrock.target_model]. unfold Bedrock.getitem_modelId. rewrite Hx.
  cbn [mbind result_bind]. by rewrite bool_decide_eq_false_2.
Qed.

Lemma target_model_first (model_id : string) (before after : list Bedrock.ModelSummary)
    (m : Bedrock.ModelSummary) :
  Forall (λ x, ∃ id, Bedrock.modelId x = Some id ∧ id ≠ model_id) before →
  Bedrock.modelId m = Some model_id →
  Bedrock.target_model model_id (before ++ m :: after) = Return (Some m).
Proof.
  intros Hb Hm. induction Hb as [| x l (id & Hx & Hne) _ IH].
  - cbn [app Bedrock.target_model]. unfold Bedrock.getitem_modelId. rewrite Hm.
    cbn [mbind result_bind]. by rewrite bool_decide_eq_true_2.
  - cbn [app Bedrock.target_model]. unfold Bedrock.getitem_modelId. rewrite Hx.
    cbn [mbind result_bind]. by rewrite bool_decide_eq_false_2.
Qed.

Lemma claude_models_ids (l : list Bedrock.ModelSummary) :
  Forall (λ x, is_Some (Bedrock.modelId x)) l →
  Bedrock.claude_models l
  = Return (List.filter (λ id, PyStr.contains "claude" (PyStr.lower id))
              (omap Bedrock.modelId l)).
Proof.
  induction 1 as [| x l [id Hx] _ IH]; [done |].
  cbn [Bedrock.claude_models omap list_omap]. unfold Bedrock.getitem_modelId.
  rewrite Hx. cbn [mbind result_bind List.filter].
  destruct (PyStr.contains "claude" (PyStr.lower id)); [| done].
  by rewrite IH.
Qed.

Lemma capable_true (m : Bedrock.ModelSummary) :
  Bedrock.capable m ↔
  Bedrock.has_text (Bedrock.inputModalities m)
  && Bedrock.has_text (Bedrock.outputModalities m)
  && default false (Bedrock.responseStreamingSupported m) = true.
Proof.
  unfold Bedrock.capable, Bedrock.has_text.
  rewrite !andb_true_iff, !bool_decide_eq_true.
  destruct (Bedrock.responseStreamingSupported m) as [[|] |]; cbn [default from_option id];
    (split; [intros (? & ? & ?) | intros [[? ?] ?]]); try done; by repeat split.
Qed.

(** X21. A model is accepted only when the answer of the client lists a summary
    with that id whose status is [ACTIVE], with text among its input and
    its output modalities, and with streaming; and then nothing has been
    written. *)
Theorem validate_model_sound (region model_id : string)
    (response : result (option (list Bedrock.ModelSummary)))
    (msg : Bedrock.message) (out : list Bedrock.output) :
  Bedrock.validate_model region model_id response = (Return (true, msg), out) →
  msg = Bedrock.AvailableAndSupported model_id ∧ out = []
  ∧ ∃ modelSummaries m,
      response = Return (Some modelSummaries) ∧ m ∈ modelSummaries
      ∧ Bedrock.modelId m = Some model_id
      ∧ Bedrock.lifecycle_status m = Some "ACTIVE"
      ∧ Bedrock.capable m.
Proof.
  unfold Bedrock.validate_model, Bedrock.list_available_models.
  destruct response as [[modelSummaries |] | e]; cbn [default from_option id];
    [| discriminate | discriminate].
  set (available := filter _ modelSummaries).
  destruct (Bedrock.target_model model_id available) as [[m |] | e] eqn:Et;
    cbn [mbind result_bind]; [| | discriminate].
  2: { destruct (Bedrock.claude_models available); discriminate. }
  destruct (target_model_found _ _ _ Et) as [Hin Hm].
  apply list_elem_of_filter in Hin as [Hactive Hin].
  destruct (negb _) eqn:Hcap; [discriminate |].
  apply negb_false_iff in Hcap. intros [= <- <-].
  split; [done |]. split; [done |].
  exists modelSummaries, m. repeat split; try done; by apply capable_true.
Qed.

(** X22. The first summary with the id among those whose status is [ACTIVE]
    decides: with the capabilities the model is accepted, without them it
    is refused for missing them, whatever the summaries after it hold. *)
Theorem validate_model_first (region model_id : string)
    (modelSummaries before after : list Bedrock.ModelSummary) (m : Bedrock.ModelSummary) :
  filter (λ model, Bedrock.lifecycle_status model = Some "ACTIVE") modelSummaries
  = (before ++ m :: after)%list →
  Forall (λ x, ∃ id, Bedrock.modelId x = Some id ∧ id ≠ model_id) before →
  Bedrock.modelId m = Some model_id →
  (Bedrock.capable m →
   Bedrock.validate_model region model_id (Return (Some modelSummaries))
   = (Return (true, Bedrock.AvailableAndSupported model_id), []))
  ∧ (¬ Bedrock.capable m →
     Bedrock.validate_model region model_id (Return (Some modelSummaries))
     = (Return (false, Bedrock.MissingCapabilities model_id), [])).
Proof.
  intros Hf Hb Hm.
  unfold Bedrock.validate_model, Bedrock.list_available_models.
  cbn [default from_option id]. rewrite Hf, (target_model_first _ _ _ _ Hb Hm).
  cbn [mbind result_bind]. rewrite capable_true.
  split; intros Hc.
  - by rewrite Hc.
  - apply not_true_is_false in Hc. by rewrite Hc.
Qed.

(** X23. When no summary among those the validator keeps has the id, the model
    is reported as not found, with the ids of the kept summaries that
    contain [claude] in any case, in their order. So it is when the client
    raises: the error is written, nothing is kept, and the report is the
    same as for a model that is not there. *)
Theorem validate_model_not_found (region model_id : string)
    (response : result (option (list Bedrock.ModelSummary))) :
  Forall (λ x, ∃ id, Bedrock.modelId x = Some id ∧ id ≠ model_id)
    (Bedrock.list_available_models response).1 →
  Bedrock.validate_model region model_id response
  = (Return (false,
             Bedrock.ModelNotFound model_id region
               (List.filter (λ id, PyStr.contains "claude" (PyStr.lower id))
                  (omap Bedrock.modelId (Bedrock.list_available_models response).1))),
     (Bedrock.list_available_models response).2).
Proof.
  intros Hall. unfold Bedrock.validate_model.
  destruct (Bedrock.list_available_models response) as [available out].
  cbn [fst snd] in *.
  rewrite (target_model_none _ _ Hall). cbn [mbind result_bind].
  rewrite claude_models_ids; [done |].
  eapply Forall_impl; [done |]. intros x (id & -> & _). eauto.
Qed.

(** ** The validator, at a listing *)

Lemma validate_model_sound_witness :
  ∃ msg out,
    Bedrock.validate_model "us-west-2" "anthropic.claude-3-5-sonnet-20241022-v2:0"
      (Return (Some Bedrock.listing))
    = (Return (true, msg), out)
    ∧ msg = Bedrock.AvailableAndSupported "anthropic.claude-3-5-sonnet-20241022-v2:0"
    ∧ out = []
    ∧ ∃ modelSummaries m,
        Return (Some Bedrock.listing) = Return (Some modelSummaries) ∧ m ∈ modelSummaries
        ∧ Bedrock.modelId m = Some "anthropic.claude-3-5-sonnet-20241022-v2:0"
        ∧ Bedrock.lifecycle_status m = Some "ACTIVE"
        ∧ Bedrock.capable m.
Proof.
  eexists _, _. split; [vm_compute; reflexivity |].
  apply (validate_model_sound "us-west-2" "anthropic.claude-3-5-sonnet-20241022-v2:0"
           (Return (Some Bedrock.listing))).
  vm_compute. reflexivity.
Defined.

Lemma validate_model_first_witness :
  (Bedrock.capable Bedrock.claude_sonnet →
   Bedrock.validate_model "us-west-2" "anthropic.claude-3-5-sonnet-20241022-v2:0"
     (Return (Some Bedrock.listing))
   = (Return (true, Bedrock.AvailableAndSupported
                      "anthropic.claude-3-5-sonnet-20241022-v2:0"), []))
  ∧ (¬ Bedrock.capable Bedrock.claude_sonnet →
     Bedrock.validate_model "us-west-2" "anthropic.claude-3-5-sonnet-20241022-v2:0"
       (Return (Some Bedrock.listing))
     = (Return (false, Bedrock.MissingCapabilities
                         "anthropic.claude-3-5-sonnet-20241022-v2:0"), [])).
Proof.
  apply (validate_model_first "us-west-2" "anthropic.claude-3-5-sonnet-20241022-v2:0"
           Bedrock.listing [Bedrock.titan] [] Bedrock.claude_sonnet).
  - vm_compute. reflexivity.
  - apply Forall_cons. split; [| constructor].
    exists "amazon.titan-embed-text-v1". split; [reflexivity | discriminate].
  - reflexivity.
Defined.

Lemma validate_model_not_found_witness :
  Bedrock.validate_model "us-west-2" "anthropic.claude-v2" (Return (Some Bedrock.listing))
  = (Return (false,
             Bedrock.ModelNotFound "anthropic.claude-v2" "us-west-2"
               ["anthropic.claude-3-5-sonnet-20241022-v2:0"]),
     [])
  ∧ Bedrock.validate_model "us-west-2" "anthropic.claude-v2" (Raise Tests.boom)
    = (Return (false, Bedrock.ModelNotFound "anthropic.claude-v2" "us-west-2" []),
       [Bedrock.FailedToList Tests.boom]).
Proof.
  split.
  - apply (validate_model_not_found "us-west-2" "anthropic.claude-v2"
             (Return (Some Bedrock.listing))).
    apply Forall_cons. split.
    { exists "amazon.titan-embed-text-v1". split; [reflexivity | discriminate]. }
    apply Forall_cons. split; [| constructor].
    exists "anthropic.claude-3-5-sonnet-20241022-v2:0". split; [reflexivity | discriminate].
  - apply (validate_model_not_found "us-west-2" "anthropic.claude-v2" (Raise Tests.boom)).
    constructor.
Defined.
